(** * Motion control of the Ellee robot: wheel driver, safety supervisor,
      voice-command processor and the MOVING state of the brain.

    Shallow embedding of [motor.py], [enhanced_motor_control.py],
    [movement_comands.py] and the movement part of
    [enhanced_brain_module_with_movements.py].

    Conventions of the embedding.
    - Python integers are [Z].  Floating-point numbers are outside the
      model, and with them [set_omni_movement], which divides.
    - [time.time()] is an integer number of milliseconds, handed to every
      method that reads the clock as its argument [now]; [time.sleep(n)]
      in a daemon thread becomes a wake-up time [now + 1000 * n], and the
      durations of the movement history are milliseconds too.
    - Utterances are ASCII strings.
    - A method call runs without interleaving.  [threading.Lock] is not
      reentrant: acquiring it while it is held blocks the caller, and in
      this model the holder is then a thread that is itself blocked, so
      the call never returns ([Blocked]).
    - GPIO pin levels are hardware state driven by the PWM thread and are
      not part of the model; only the duty values are. *)

From Stdlib Require Import ZArith Lia.
From Stdlib Require Import String Ascii List Bool.
From stdpp Require Import base gmap strings list fin_maps pretty.

Open Scope string_scope.
Open Scope Z_scope.

(** ** Python numbers *)

(** What [set_motor_speed] needs from its duck-typed [speed] argument. *)
Class PyNum (N : Type) := {
  num_of_Z : Z -> N;
  num_ltb : N -> N -> bool;
  num_neg : N -> N;
  num_abs : N -> N
}.

#[export] Instance PyNum_Z : PyNum Z := {|
  num_of_Z := fun z => z;
  num_ltb := Z.ltb;
  num_neg := Z.opp;
  num_abs := Z.abs
|}.

(** [max(a, b)] and [min(a, b)] of Python: the first argument wins a tie. *)
Definition py_max {N} `{PyNum N} (a b : N) : N := if num_ltb a b then b else a.
Definition py_min {N} `{PyNum N} (a b : N) : N := if num_ltb b a then b else a.

(** ** motor.py *)

Module Motor.

Record Motor (N : Type) := mkMotor {
  RPWM : Z;
  LPWM : Z;
  speed_f : N;
  speed_r : N
}.
Arguments mkMotor {N}.
Arguments RPWM {N}.
Arguments LPWM {N}.
Arguments speed_f {N}.
Arguments speed_r {N}.

Record SOMEBODY4MotorController (N : Type) := mkBase {
  motors : gmap string (Motor N);
  pwm_running : bool;
  pwm_frequency : Z
}.
Arguments mkBase {N}.
Arguments motors {N}.
Arguments pwm_running {N}.
Arguments pwm_frequency {N}.

Section Driver.
Context {N : Type} `{PyNum N}.

Definition set_motors (m : gmap string (Motor N)) (c : SOMEBODY4MotorController N)
  : SOMEBODY4MotorController N :=
  mkBase m (pwm_running c) (pwm_frequency c).

Definition init : SOMEBODY4MotorController N :=
  let z := num_of_Z 0 in
  mkBase (<["FL" := mkMotor 11 13 z z]>
         (<["FR" := mkMotor 15 16 z z]>
         (<["BR" := mkMotor 18 22 z z]>
         (<["BL" := mkMotor 29 31 z z]> ∅))))
         true 100.

(** A name that is not a key of [self.motors] is ignored; otherwise the
    speed is clamped to -100..100 and split into the two duties. *)
Definition set_motor_speed (motor_name : string) (speed : N)
    (c : SOMEBODY4MotorController N) : SOMEBODY4MotorController N :=
  match motors c !! motor_name with
  | None => c
  | Some motor =>
      let speed := py_max (num_of_Z (-100)) (py_min (num_of_Z 100) speed) in
      if num_ltb (num_of_Z 0) speed then
        set_motors (<[motor_name := mkMotor (RPWM motor) (LPWM motor)
                                      (num_abs speed) (num_of_Z 0)]> (motors c)) c
      else if num_ltb speed (num_of_Z 0) then
        set_motors (<[motor_name := mkMotor (RPWM motor) (LPWM motor)
                                      (num_of_Z 0) (num_abs speed)]> (motors c)) c
      else
        set_motors (<[motor_name := mkMotor (RPWM motor) (LPWM motor)
                                      (num_of_Z 0) (num_of_Z 0)]> (motors c)) c
  end.

(** [for motor_name in self.motors: self.set_motor_speed(motor_name, 0)] *)
Definition stop_all (c : SOMEBODY4MotorController N) : SOMEBODY4MotorController N :=
  foldl (fun c motor_name => set_motor_speed motor_name (num_of_Z 0) c)
        c (elements (dom (motors c))).

Definition set4 (fl fr bl br : N) (c : SOMEBODY4MotorController N) :=
  set_motor_speed "BR" br
    (set_motor_speed "BL" bl
      (set_motor_speed "FR" fr
        (set_motor_speed "FL" fl c))).

Definition move_forward (speed : N) := set4 speed speed speed speed.
Definition move_backward (speed : N) :=
  set4 (num_neg speed) (num_neg speed) (num_neg speed) (num_neg speed).
Definition turn_left (speed : N) :=
  set4 (num_neg speed) speed (num_neg speed) speed.
Definition turn_right (speed : N) :=
  set4 speed (num_neg speed) speed (num_neg speed).
Definition strafe_left (speed : N) :=
  set4 (num_neg speed) speed speed (num_neg speed).
Definition strafe_right (speed : N) :=
  set4 speed (num_neg speed) (num_neg speed) speed.
Definition diagonal_forward_left (speed : N) :=
  set4 (num_of_Z 0) speed speed (num_of_Z 0).
Definition diagonal_forward_right (speed : N) :=
  set4 speed (num_of_Z 0) (num_of_Z 0) speed.
Definition spin_clockwise (speed : N) :=
  set4 speed (num_neg speed) speed (num_neg speed).

End Driver.

(** [dance_demo]: seven moves, each followed by a sleep, then [stop_all].
    The first five are called without argument, at the default speed 50. *)
Definition dance_demo_moves
  : list (SOMEBODY4MotorController Z -> SOMEBODY4MotorController Z) :=
  [ move_forward 50; move_backward 50; spin_clockwise 50; strafe_left 50;
    strafe_right 50; diagonal_forward_left 40; turn_left 60 ].

Definition dance_demo (c : SOMEBODY4MotorController Z) : SOMEBODY4MotorController Z :=
  stop_all (foldl (fun c move => move c) c dance_demo_moves).

(** [cleanup]: the PWM thread is told to end, then the motors are stopped. *)
Definition cleanup (c : SOMEBODY4MotorController Z) : SOMEBODY4MotorController Z :=
  stop_all (mkBase (motors c) false (pwm_frequency c)).

(** Signed duty of a wheel, [None] for a name that is not a wheel. *)
Definition duty_Z (c : SOMEBODY4MotorController Z) (name : string) : option Z :=
  (fun m => speed_f m - speed_r m) <$> motors c !! name.

End Motor.

(** ** Calls that may block *)

(** The result of a call on a state [S]: it returns a value, or it blocks
    for ever on a lock, leaving the state it had reached. *)
Inductive Outcome (S A : Type) :=
| Returned (a : A) (s : S)
| Blocked (s : S).
Arguments Returned {S A}.
Arguments Blocked {S A}.

Definition M (S A : Type) := S -> Outcome S A.

Definition ret {S A} (a : A) : M S A := fun s => Returned a s.

Definition bind {S A B} (c : M S A) (k : A -> M S B) : M S B :=
  fun s => match c s with
           | Returned a s' => k a s'
           | Blocked s' => Blocked s'
           end.

Notation "'let*' x := c 'in' k" := (bind c (fun x => k))
  (at level 10, x name, c at level 100, k at level 200).
Notation "'do' c 'then' k" := (bind c (fun _ => k))
  (at level 10, c at level 100, k at level 200).

Definition gets {S A} (f : S -> A) : M S A := fun s => Returned (f s) s.
Definition modify {S} (f : S -> S) : M S unit := fun s => Returned tt (f s).

Definition final {S A} (o : Outcome S A) : S :=
  match o with Returned _ s => s | Blocked s => s end.

Definition returned {S A} (o : Outcome S A) : bool :=
  match o with Returned _ _ => true | Blocked _ => false end.

(** ** enhanced_motor_control.py *)

Module Control.
Import Motor.

Record HistoryEntry := mkEntry {
  action : string;
  duration : Z;
  speed : Z;
  timestamp : Z
}.

(** The fields of [ElleeMotorController]; [base] holds those inherited from
    [SOMEBODY4MotorController], [safety_lock] tells whether the lock is held. *)
Record ElleeMotorController := mkEllee {
  base : SOMEBODY4MotorController Z;
  default_speed : Z;
  max_safe_speed : Z;
  current_speed : Z;
  is_moving : bool;
  current_action : string;
  movement_start_time : option Z;
  emergency_stop_active : bool;
  movement_timeout : Z;
  safety_lock : bool;
  movement_history : list HistoryEntry;
  total_movements : Z
}.

(** One step of the dance: its name, the gait it sets, and how long the
    dance thread sleeps after it (milliseconds). *)
Record DanceMove := mkMove {
  move_name : string;
  move_action : SOMEBODY4MotorController Z -> SOMEBODY4MotorController Z;
  move_sleep : Z
}.

(** The daemon threads the controller starts.  Each one is sleeping until
    its wake-up time; what it does then is [run_thread] below. *)
Inductive Thread :=
| movement_timeout_check (wake : Z)
| clear_emergency_stop (wake : Z)
| timed_movement (wake : Z)
| enhanced_dance (moves : list DanceMove) (wake : Z).

Definition wake_time (t : Thread) : Z :=
  match t with
  | movement_timeout_check w | clear_emergency_stop w | timed_movement w => w
  | enhanced_dance _ w => w
  end.

Definition is_watchdog (t : Thread) : bool :=
  match t with movement_timeout_check _ => true | _ => false end.

(** The controller object together with the threads it has started. *)
Record World := mkWorld {
  self : ElleeMotorController;
  threads : list Thread
}.

Definition init_controller : ElleeMotorController :=
  mkEllee Motor.init 50 70 50 false "stopped" None false 10 false [] 0.

Definition init_world : World := mkWorld init_controller [].

(** *** Field updates *)

Definition upd (f : ElleeMotorController -> ElleeMotorController) : M World unit :=
  modify (fun w => mkWorld (f (self w)) (threads w)).

Definition spawn (t : Thread) : M World unit :=
  modify (fun w => mkWorld (self w) (threads w ++ [t])%list).

Definition set_base b (c : ElleeMotorController) :=
  mkEllee b (default_speed c) (max_safe_speed c) (current_speed c)
    (is_moving c) (current_action c) (movement_start_time c)
    (emergency_stop_active c) (movement_timeout c) (safety_lock c)
    (movement_history c) (total_movements c).

Definition set_current_speed v (c : ElleeMotorController) :=
  mkEllee (base c) (default_speed c) (max_safe_speed c) v
    (is_moving c) (current_action c) (movement_start_time c)
    (emergency_stop_active c) (movement_timeout c) (safety_lock c)
    (movement_history c) (total_movements c).

Definition set_emergency_stop_active v (c : ElleeMotorController) :=
  mkEllee (base c) (default_speed c) (max_safe_speed c) (current_speed c)
    (is_moving c) (current_action c) (movement_start_time c)
    v (movement_timeout c) (safety_lock c)
    (movement_history c) (total_movements c).

Definition set_movement_timeout v (c : ElleeMotorController) :=
  mkEllee (base c) (default_speed c) (max_safe_speed c) (current_speed c)
    (is_moving c) (current_action c) (movement_start_time c)
    (emergency_stop_active c) v (safety_lock c)
    (movement_history c) (total_movements c).

Definition set_safety_lock v (c : ElleeMotorController) :=
  mkEllee (base c) (default_speed c) (max_safe_speed c) (current_speed c)
    (is_moving c) (current_action c) (movement_start_time c)
    (emergency_stop_active c) (movement_timeout c) v
    (movement_history c) (total_movements c).

Definition set_movement_history v (c : ElleeMotorController) :=
  mkEllee (base c) (default_speed c) (max_safe_speed c) (current_speed c)
    (is_moving c) (current_action c) (movement_start_time c)
    (emergency_stop_active c) (movement_timeout c) (safety_lock c)
    v (total_movements c).

(** [is_moving], [current_action] and [movement_start_time] change together;
    [_start_movement] also counts the movement. *)
Definition set_movement moving act start total (c : ElleeMotorController) :=
  mkEllee (base c) (default_speed c) (max_safe_speed c) (current_speed c)
    moving act start
    (emergency_stop_active c) (movement_timeout c) (safety_lock c)
    (movement_history c) total.

(** [with self.safety_lock: body].  The lock is released when the body
    returns; a caller that finds it held waits for ever. *)
Definition with_safety_lock {A} (body : M World A) : M World A :=
  fun w =>
    if safety_lock (self w) then Blocked w
    else match (do upd (set_safety_lock true) then body) w with
         | Returned a w' => (do upd (set_safety_lock false) then ret a) w'
         | Blocked w' => Blocked w'
         end.

(** *** Methods *)

Definition set_speed_limit (speed : Z) : M World Z :=
  let* c := gets self in
  let speed := py_max 0 (py_min (max_safe_speed c) speed) in
  do upd (set_current_speed speed) then
  ret speed.

Definition _start_movement (now : Z) (action_name : string) : M World bool :=
  with_safety_lock (
    let* c := gets self in
    if emergency_stop_active c then ret false
    else
      do upd (set_movement true action_name (Some now) (total_movements c + 1)) then
      do spawn (movement_timeout_check (now + 1000 * movement_timeout c)) then
      ret true).

(** [x if self.movement_start_time else 0]: [None] and [0] are both false. *)
Definition elapsed (now : Z) (start : option Z) : Z :=
  match start with
  | Some t => if t =? 0 then 0 else now - t
  | None => 0
  end.

(** [l[-50:]] *)
Definition last50 {A} (l : list A) : list A := drop (length l - 50)%nat l.

Definition _end_movement (now : Z) : M World unit :=
  with_safety_lock (
    let* c := gets self in
    do (if is_moving c then
          let h := (movement_history c ++
                    [mkEntry (current_action c)
                             (elapsed now (movement_start_time c))
                             (current_speed c) now])%list in
          upd (set_movement_history
                 (if (50 <? length h)%nat then last50 h else h))
        else ret tt) then
    upd (fun c => set_movement false "stopped" None (total_movements c) c)).

Definition super_stop_all : M World unit :=
  upd (fun c => set_base (Motor.stop_all (base c)) c).

Definition stop_all_safe (now : Z) : M World unit :=
  do super_stop_all then
  _end_movement now.

Definition _movement_timeout_check (now : Z) : M World unit :=
  let* c := gets self in
  if is_moving c then stop_all_safe now else ret tt.

Definition emergency_stop (now : Z) : M World string :=
  with_safety_lock (
    do upd (set_emergency_stop_active true) then
    do super_stop_all then
    do _end_movement now then
    do spawn (clear_emergency_stop (now + 1000 * 2)) then
    ret "Emergency stop activated! All movement halted.").

Definition _clear_emergency_stop : M World unit :=
  with_safety_lock (upd (set_emergency_stop_active false)).

Definition _timed_movement (now : Z) : M World unit := stop_all_safe now.

(** [speed or default]: [None] and [0] both give the default. *)
Definition py_or (speed : option Z) (default : Z) : Z :=
  match speed with
  | Some v => if v =? 0 then default else v
  | None => default
  end.

(** [if duration:] *)
Definition truthy (duration : option Z) : option Z :=
  match duration with
  | Some d => if d =? 0 then None else Some d
  | None => None
  end.

Definition drive (f : SOMEBODY4MotorController Z -> SOMEBODY4MotorController Z)
  : M World unit :=
  upd (fun c => set_base (f (base c)) c).

(** The six directional voice commands are the same method up to the
    action name, the gait and the wording of the answer. *)
Definition voice_directional (action_name : string)
    (gait : Z -> SOMEBODY4MotorController Z -> SOMEBODY4MotorController Z)
    (phrase : string) (now : Z) (speed duration : option Z) : M World string :=
  let* ok := _start_movement now action_name in
  if negb ok then ret "Cannot move - emergency stop active"
  else
    let* c := gets self in
    let* speed := set_speed_limit (py_or speed (current_speed c)) in
    do drive (gait speed) then
    match truthy duration with
    | Some d =>
        do spawn (timed_movement (now + 1000 * d)) then
        ret (phrase ++ " at " ++ pretty speed ++ "% speed for "
                    ++ pretty d ++ " seconds")
    | None => ret (phrase ++ " at " ++ pretty speed ++ "% speed")
    end.

Definition voice_move_forward :=
  voice_directional "moving forward" move_forward "Moving forward".
Definition voice_move_backward :=
  voice_directional "moving backward" move_backward "Moving backward".
Definition voice_turn_left :=
  voice_directional "turning left" turn_left "Turning left".
Definition voice_turn_right :=
  voice_directional "turning right" turn_right "Turning right".
Definition voice_strafe_left :=
  voice_directional "strafing left" strafe_left "Moving left sideways".
Definition voice_strafe_right :=
  voice_directional "strafing right" strafe_right "Moving right sideways".

(** [duration] defaults to 2 when the caller passes none. *)
Definition voice_spin_around (now : Z) (speed duration : option Z) : M World string :=
  let duration := default 2 duration in
  let* ok := _start_movement now "spinning around" in
  if negb ok then ret "Cannot move - emergency stop active"
  else
    let* c := gets self in
    let* speed := set_speed_limit (py_or speed (current_speed c - 10)) in
    do drive (spin_clockwise speed) then
    do spawn (timed_movement (now + 1000 * duration)) then
    ret ("Spinning around at " ++ pretty speed ++ "% speed for "
           ++ pretty duration ++ " seconds").

Definition dance_moves : list DanceMove :=
  [ mkMove "forward wiggle" (move_forward 40) 1000;
    mkMove "backward wiggle" (move_backward 40) 1000;
    mkMove "left slide" (strafe_left 35) 1500;
    mkMove "right slide" (strafe_right 35) 1500;
    mkMove "spin left" (turn_left 45) 2000;
    mkMove "spin right" (turn_right 45) 2000;
    mkMove "diagonal move" (diagonal_forward_left 30) 1000;
    mkMove "final spin" (spin_clockwise 50) 3000 ].

Definition voice_dance_mode (now : Z) : M World string :=
  let* ok := _start_movement now "dancing" in
  if negb ok then ret "Cannot move - emergency stop active"
  else
    do spawn (enhanced_dance dance_moves now) then
    ret "Let me show you my moves! Starting dance mode!".

Definition voice_come_here (now : Z) (duration : option Z) : M World string :=
  let duration := default 2 duration in
  let* ok := _start_movement now "coming to you" in
  if negb ok then ret "Cannot move - emergency stop active"
  else
    let* speed := set_speed_limit 30 in
    do drive (move_forward speed) then
    do spawn (timed_movement (now + 1000 * duration)) then
    ret ("Coming to you at safe speed for " ++ pretty duration ++ " seconds").

(** The dance thread between two sleeps: one turn of its [for] loop, or
    the [stop_all_safe] after the loop. *)
Definition _enhanced_dance (now : Z) (moves : list DanceMove) : M World unit :=
  let* c := gets self in
  match moves with
  | m :: rest =>
      if negb (is_moving c) then stop_all_safe now
      else
        do drive (move_action m) then
        spawn (enhanced_dance rest (now + move_sleep m))
  | [] => stop_all_safe now
  end.

Record MovementStatus := mkStatus {
  st_is_moving : bool;
  st_current_action : string;
  st_current_speed : Z;
  st_emergency_stop_active : bool;
  st_total_movements : Z;
  st_movement_duration : Z
}.

Definition get_movement_status (now : Z) (c : ElleeMotorController) : MovementStatus :=
  mkStatus (is_moving c) (current_action c) (current_speed c)
           (emergency_stop_active c) (total_movements c)
           (elapsed now (movement_start_time c)).

(** [preferences] may hold ['default_speed'] and ['movement_timeout']. *)
Definition set_movement_preferences (pref_speed pref_timeout : option Z) : M World unit :=
  do match pref_speed with
     | Some v => let* s := set_speed_limit v in upd (set_current_speed s)
     | None => ret tt
     end then
  match pref_timeout with
  | Some v => upd (set_movement_timeout (py_max 5 (py_min 30 v)))
  | None => ret tt
  end.

Definition cleanup_enhanced (now : Z) : M World unit :=
  let* c := gets self in
  do (if is_moving c then stop_all_safe now else ret tt) then
  upd (fun c => set_base (Motor.cleanup (base c)) c).

(** *** Scheduling of the daemon threads *)

(** What a thread does when its sleep is over. *)
Definition thread_body (now : Z) (t : Thread) : M World unit :=
  match t with
  | movement_timeout_check _ => _movement_timeout_check now
  | clear_emergency_stop _ => _clear_emergency_stop
  | timed_movement _ => _timed_movement now
  | enhanced_dance moves _ => _enhanced_dance now moves
  end.

(** Thread number [i] of the pool resumes at time [now]; [None] when
    there is no such thread or it is still asleep. *)
Definition run_thread (now : Z) (i : nat) (w : World) : option (Outcome World unit) :=
  match threads w !! i with
  | Some t =>
      if wake_time t <=? now then
        Some (thread_body now t (mkWorld (self w) (delete i (threads w))))
      else None
  | None => None
  end.

Definition watchdogs (w : World) : list Thread := filter is_watchdog (threads w).

(** Signed duties of the four wheels, in the order FL, FR, BL, BR. *)
Definition wheels (w : World) : list (option Z) :=
  map (duty_Z (base (self w))) ["FL"; "FR"; "BL"; "BR"].

(** *** Runs

    What the rest of the program and the scheduler can do to the
    controller: call one of its public methods, or let a sleeping thread
    resume.  A caller that blocks is lost; the others go on with the state
    it left. *)
Inductive Call :=
| call_voice_move_forward (speed duration : option Z)
| call_voice_move_backward (speed duration : option Z)
| call_voice_turn_left (speed duration : option Z)
| call_voice_turn_right (speed duration : option Z)
| call_voice_strafe_left (speed duration : option Z)
| call_voice_strafe_right (speed duration : option Z)
| call_voice_spin_around (speed duration : option Z)
| call_voice_dance_mode
| call_voice_come_here (duration : option Z)
| call_stop_all_safe
| call_emergency_stop
| call_set_speed_limit (speed : Z)
| call_set_movement_preferences (pref_speed pref_timeout : option Z)
| resume (i : nat).

Definition exec (now : Z) (e : Call) (w : World) : option World :=
  match e with
  | call_voice_move_forward s d => Some (final (voice_move_forward now s d w))
  | call_voice_move_backward s d => Some (final (voice_move_backward now s d w))
  | call_voice_turn_left s d => Some (final (voice_turn_left now s d w))
  | call_voice_turn_right s d => Some (final (voice_turn_right now s d w))
  | call_voice_strafe_left s d => Some (final (voice_strafe_left now s d w))
  | call_voice_strafe_right s d => Some (final (voice_strafe_right now s d w))
  | call_voice_spin_around s d => Some (final (voice_spin_around now s d w))
  | call_voice_dance_mode => Some (final (voice_dance_mode now w))
  | call_voice_come_here d => Some (final (voice_come_here now d w))
  | call_stop_all_safe => Some (final (stop_all_safe now w))
  | call_emergency_stop => Some (final (emergency_stop now w))
  | call_set_speed_limit s => Some (final (set_speed_limit s w))
  | call_set_movement_preferences s t => Some (final (set_movement_preferences s t w))
  | resume i => final <$> run_thread now i w
  end.

(** A run is a list of timed calls; the clock does not go back, and a
    thread only resumes when its sleep is over.  [None]: not a run. *)
Fixpoint run (last : Z) (trace : list (Z * Call)) (w : World) : option World :=
  match trace with
  | [] => Some w
  | (now, e) :: trace' =>
      if last <=? now then
        match exec now e w with
        | Some w' => run now trace' w'
        | None => None
        end
      else None
  end.

End Control.

(** ** movement_comands.py *)

Module Commands.

(** *** The regular expressions of the pattern tables

    Utterances are ASCII strings.  The patterns of the file only use
    literal text, [\b], [\s+], [\s*], one capturing [(\d+)], an optional
    letter and alternatives of literal words, so a pattern is a sequence
    of such items.  Matching is Python's backtracking search with
    [re.IGNORECASE]: leftmost start, greedy repetitions, alternatives in
    order. *)

Inductive Item :=
| Lit (s : string)
| B
| S1
| S0
| D1
| Opt (c : ascii)
| Alt (words : list string).

Definition Pattern := list Item.

Definition code (c : ascii) : N := N_of_ascii c.

Definition is_upper (c : ascii) : bool := ((65 <=? code c) && (code c <=? 90))%N.
Definition is_lower (c : ascii) : bool := ((97 <=? code c) && (code c <=? 122))%N.
Definition is_digit (c : ascii) : bool := ((48 <=? code c) && (code c <=? 57))%N.

(** [\w] *)
Definition is_word (c : ascii) : bool :=
  is_upper c || is_lower c || is_digit c || (code c =? 95)%N.

(** [\s], and the characters [str.strip] removes *)
Definition is_space (c : ascii) : bool :=
  (((9 <=? code c) && (code c <=? 13)) || ((28 <=? code c) && (code c <=? 32)))%N.

Definition lower_char (c : ascii) : ascii :=
  if is_upper c then ascii_of_N (code c + 32) else c.

Fixpoint lower (s : string) : string :=
  match s with
  | EmptyString => EmptyString
  | String c s' => String (lower_char c) (lower s')
  end.

Fixpoint lstrip (s : string) : string :=
  match s with
  | String c s' => if is_space c then lstrip s' else s
  | EmptyString => EmptyString
  end.

Fixpoint rstrip (s : string) : string :=
  match s with
  | String c s' =>
      match rstrip s' with
      | EmptyString => if is_space c then EmptyString else String c EmptyString
      | r => String c r
      end
  | EmptyString => EmptyString
  end.

Definition strip (s : string) : string := rstrip (lstrip s).

Definition same_char (a b : ascii) : bool :=
  (code (lower_char a) =? code (lower_char b))%N.

(** A position in the text: the character before it, if any, and the
    text that follows. *)
Definition at_boundary (prev : option ascii) (rest : string) : bool :=
  xorb (from_option is_word false prev)
       (match rest with String c _ => is_word c | EmptyString => false end).

(** The literal [s] read at the front of [rest], ignoring case. *)
Fixpoint literal (s : string) (prev : option ascii) (rest : string)
  : option (option ascii * string) :=
  match s with
  | EmptyString => Some (prev, rest)
  | String a s' =>
      match rest with
      | String c rest' => if same_char a c then literal s' (Some c) rest' else None
      | EmptyString => None
      end
  end.

Section Matcher.
(** The result of a match is the text of group 1, if the group took part. *)
Context {R : Type}.

(** At least [least] more characters of class [p], as many as possible
    first; [taken] are the ones already read, last one first. *)
Fixpoint greedy (p : ascii -> bool) (k : string -> option ascii -> string -> option R)
    (least : nat) (taken : string) (prev : option ascii) (rest : string) : option R :=
  let stop := match least with O => k taken prev rest | S _ => None end in
  match rest with
  | String c rest' =>
      if p c then
        match greedy p k (Nat.pred least) (String c taken) (Some c) rest' with
        | Some r => Some r
        | None => stop
        end
      else stop
  | EmptyString => stop
  end.

Fixpoint first_word (words : list string) (k : option ascii -> string -> option R)
    (prev : option ascii) (rest : string) : option R :=
  match words with
  | [] => None
  | w :: words' =>
      match match literal w prev rest with
            | Some (prev', rest') => k prev' rest'
            | None => None
            end with
      | Some r => Some r
      | None => first_word words' k prev rest
      end
  end.

End Matcher.

Fixpoint rev_string (acc s : string) : string :=
  match s with
  | EmptyString => acc
  | String c s' => rev_string (String c acc) s'
  end.

(** The items matched from a position on; [group] is group 1 so far. *)
Fixpoint match_here (items : Pattern) (group : option string)
    (prev : option ascii) (rest : string) : option (option string) :=
  match items with
  | [] => Some group
  | item :: items' =>
      match item with
      | Lit s =>
          match literal s prev rest with
          | Some (prev', rest') => match_here items' group prev' rest'
          | None => None
          end
      | B => if at_boundary prev rest then match_here items' group prev rest else None
      | S1 => greedy is_space (fun _ => match_here items' group) 1 "" prev rest
      | S0 => greedy is_space (fun _ => match_here items' group) 0 "" prev rest
      | D1 => greedy is_digit
                (fun taken => match_here items' (Some (rev_string "" taken)))
                1 "" prev rest
      | Opt c =>
          match match rest with
                | String c' rest' =>
                    if same_char c c' then match_here items' group (Some c') rest'
                    else None
                | EmptyString => None
                end with
          | Some r => Some r
          | None => match_here items' group prev rest
          end
      | Alt words => first_word words (match_here items' group) prev rest
      end
  end.

(** [re.search(pattern, text, re.IGNORECASE)]: the first start that matches. *)
Fixpoint search_from (items : Pattern) (prev : option ascii) (rest : string)
  : option (option string) :=
  match match_here items None prev rest with
  | Some g => Some g
  | None =>
      match rest with
      | String c rest' => search_from items (Some c) rest'
      | EmptyString => None
      end
  end.

Definition search (items : Pattern) (text : string) : option (option string) :=
  search_from items None text.

Definition found (items : Pattern) (text : string) : bool :=
  bool_decide (is_Some (search items text)).

(** [int(m.group(1))] *)
Fixpoint int_of_digits (acc : Z) (s : string) : Z :=
  match s with
  | EmptyString => acc
  | String c s' => int_of_digits (10 * acc + Z.of_N (code c - 48)) s'
  end.

(** *** The tables of [__init__], in the order of the source *)

Definition command_patterns : list (string * list Pattern) :=
  [ ("move_forward",
      [ [B; Alt ["move"; "go"; "walk"]; S1; Alt ["forward"; "ahead"; "straight"]; B];
        [B; Lit "forward"; B];
        [B; Lit "go"; S1; Lit "forward"; B];
        [B; Lit "move"; S1; Lit "ahead"; B] ]);
    ("move_backward",
      [ [B; Alt ["move"; "go"; "walk"]; S1; Alt ["backward"; "back"; "backwards"]; B];
        [B; Lit "backward"; B];
        [B; Lit "go"; S1; Lit "back"; B];
        [B; Lit "move"; S1; Lit "back"; B];
        [B; Lit "reverse"; B] ]);
    ("turn_left",
      [ [B; Lit "turn"; S1; Lit "left"; B];
        [B; Lit "go"; S1; Lit "left"; B];
        [B; Lit "left"; S1; Lit "turn"; B];
        [B; Lit "rotate"; S1; Lit "left"; B] ]);
    ("turn_right",
      [ [B; Lit "turn"; S1; Lit "right"; B];
        [B; Lit "go"; S1; Lit "right"; B];
        [B; Lit "right"; S1; Lit "turn"; B];
        [B; Lit "rotate"; S1; Lit "right"; B] ]);
    ("strafe_left",
      [ [B; Alt ["move"; "strafe"; "slide"]; S1; Lit "left"; B];
        [B; Lit "sideway"; S1; Lit "left"; B];
        [B; Lit "step"; S1; Lit "left"; B] ]);
    ("strafe_right",
      [ [B; Alt ["move"; "strafe"; "slide"]; S1; Lit "right"; B];
        [B; Lit "sideway"; S1; Lit "right"; B];
        [B; Lit "step"; S1; Lit "right"; B] ]);
    ("spin_around",
      [ [B; Lit "spin"; S1; Alt ["around"; "clockwise"]; B];
        [B; Lit "turn"; S1; Lit "around"; B];
        [B; Lit "rotate"; S1; Alt ["around"; "full"]; B];
        [B; Lit "spin"; B] ]);
    ("dance",
      [ [B; Lit "dance"; B];
        [B; Lit "show"; S1; Lit "me"; S1; Lit "your"; S1; Lit "moves"; B];
        [B; Lit "dance"; S1; Lit "mode"; B];
        [B; Lit "let's"; S1; Lit "dance"; B] ]);
    ("come_here",
      [ [B; Lit "come"; S1; Lit "here"; B];
        [B; Lit "come"; S1; Lit "to"; S1; Lit "me"; B];
        [B; Lit "come"; S1; Lit "over"; B];
        [B; Lit "approach"; B] ]);
    ("stop",
      [ [B; Lit "stop"; B];
        [B; Lit "halt"; B];
        [B; Lit "stop"; S1; Lit "moving"; B];
        [B; Lit "freeze"; B] ]);
    ("emergency_stop",
      [ [B; Lit "emergency"; S1; Lit "stop"; B];
        [B; Lit "stop"; S1; Lit "now"; B];
        [B; Lit "stop"; S1; Lit "immediately"; B];
        [B; Lit "E"; S0; Lit "STOP"; B] ]) ].

Definition speed_patterns : list (string * list Pattern) :=
  [ ("slow", [ [B; Lit "slow"; B]; [B; Lit "slowly"; B]; [B; Lit "carefully"; B] ]);
    ("fast", [ [B; Lit "fast"; B]; [B; Lit "quick"; B]; [B; Lit "quickly"; B];
               [B; Lit "rapid"; B] ]);
    ("normal", [ [B; Lit "normal"; B]; [B; Lit "regular"; B]; [B; Lit "medium"; B] ]) ].

Definition group1 (m : option string) : Z := int_of_digits 0 (default "" m).

Definition duration_patterns : list (Pattern * (option string -> Z)) :=
  [ ([B; Lit "for"; S1; D1; S1; Lit "second"; Opt "s"; B], group1);
    ([B; Lit "for"; S1; D1; S1; Lit "sec"; B], group1);
    ([B; D1; S1; Lit "second"; Opt "s"; B], group1);
    ([B; Lit "a"; S1; Lit "bit"; B], fun _ => 1);
    ([B; Lit "a"; S1; Lit "little"; B], fun _ => 1);
    ([B; Lit "a"; S1; Lit "while"; B], fun _ => 3);
    ([B; Lit "a"; S1; Lit "moment"; B], fun _ => 2) ].

(** [dict.get(key, [])] on a table *)
Fixpoint patterns_of (table : list (string * list Pattern)) (key : string) : list Pattern :=
  match table with
  | [] => []
  | (k, ps) :: table' => if String.eqb k key then ps else patterns_of table' key
  end.

Definition _match_command (text command_type : string) : bool :=
  existsb (fun pattern => found pattern text) (patterns_of command_patterns command_type).

Definition speed_of_type (speed_type : string) : option Z :=
  if String.eqb speed_type "slow" then Some 30
  else if String.eqb speed_type "fast" then Some 65
  else if String.eqb speed_type "normal" then Some 50
  else None.

(** The inner loop of [_extract_speed], over the patterns of one speed type. *)
Fixpoint _extract_speed_type (speed_type : string) (patterns : list Pattern)
    (text : string) : option Z :=
  match patterns with
  | [] => None
  | pattern :: patterns' =>
      if found pattern text then
        match speed_of_type speed_type with
        | Some v => Some v
        | None => _extract_speed_type speed_type patterns' text
        end
      else _extract_speed_type speed_type patterns' text
  end.

Fixpoint _extract_speed_from (table : list (string * list Pattern)) (text : string)
  : option Z :=
  match table with
  | [] => None
  | (speed_type, patterns) :: table' =>
      match _extract_speed_type speed_type patterns text with
      | Some v => Some v
      | None => _extract_speed_from table' text
      end
  end.

Definition _extract_speed (text : string) : option Z :=
  _extract_speed_from speed_patterns text.

Fixpoint _extract_duration_from (table : list (Pattern * (option string -> Z)))
    (text : string) : option Z :=
  match table with
  | [] => None
  | (pattern, converter) :: table' =>
      match search pattern text with
      | Some m => Some (converter m)
      | None => _extract_duration_from table' text
      end
  end.

Definition _extract_duration (text : string) : option Z :=
  _extract_duration_from duration_patterns text.

Definition is_movement_command (voice_text : string) : bool :=
  match voice_text with
  | EmptyString => false
  | _ =>
      let text := strip (lower voice_text) in
      existsb (fun entry => existsb (fun pattern => found pattern text) (snd entry))
              command_patterns
  end.

(** *** The motor controller as the processor sees it

    The processor only calls these methods of [self.motor_controller]; the
    file runs it on an [ElleeMotorController] and, in its test, on a mock.
    A [speed] or [duration] of [None] is a keyword argument that is not
    passed, so the method's own default applies. *)
Class MotorControllerAPI (W : Type) := {
  api_voice_move_forward : Z -> option Z -> option Z -> M W string;
  api_voice_move_backward : Z -> option Z -> option Z -> M W string;
  api_voice_turn_left : Z -> option Z -> option Z -> M W string;
  api_voice_turn_right : Z -> option Z -> option Z -> M W string;
  api_voice_strafe_left : Z -> option Z -> option Z -> M W string;
  api_voice_strafe_right : Z -> option Z -> option Z -> M W string;
  api_voice_spin_around : Z -> option Z -> option Z -> M W string;
  api_voice_dance_mode : Z -> M W string;
  api_voice_come_here : Z -> option Z -> M W string;
  api_stop_all_safe : Z -> M W unit;
  api_emergency_stop : Z -> M W string
}.

(** An entry of [command_history]; the last two keys are only set by
    [_record_success]. *)
Record CommandRecord := mkRecord {
  rec_text : string;
  rec_timestamp : Z;
  rec_processed : bool;
  rec_command_type : option string;
  rec_success : option bool
}.

Record MovementCommandProcessor (W : Type) := mkProcessor {
  motor_controller : W;
  command_history : list CommandRecord;
  last_command_time : Z
}.
Arguments mkProcessor {W}.
Arguments motor_controller {W}.
Arguments command_history {W}.
Arguments last_command_time {W}.

(** The dictionary a command returns; a key that is absent is [None]. *)
Record CommandResult := mkResult {
  success : bool;
  response : string;
  command_type : option string;
  speed : option Z;
  duration : option Z
}.

Definition new_processor {W} (controller : W) : MovementCommandProcessor W :=
  mkProcessor controller [] 0.

Section Processor.
Context {W : Type} `{MotorControllerAPI W}.

Local Abbreviation Proc := (MovementCommandProcessor W).

(** A call of a method of [self.motor_controller]. *)
Definition on_controller {A} (c : M W A) : M Proc A :=
  fun p =>
    match c (motor_controller p) with
    | Returned a w => Returned a (mkProcessor w (command_history p) (last_command_time p))
    | Blocked w => Blocked (mkProcessor w (command_history p) (last_command_time p))
    end.

Definition set_history (h : list CommandRecord) (p : Proc) : Proc :=
  mkProcessor (motor_controller p) h (last_command_time p).

(** [l[-20:]] *)
Definition last20 {A} (l : list A) : list A := drop (length l - 20)%nat l.

Definition record_command (now : Z) (text : string) : M Proc unit :=
  modify (fun p =>
    let h := (command_history p ++ [mkRecord text now false None None])%list in
    set_history (if (20 <? length h)%nat then last20 h else h) p).

Definition mark_last (command_type : string) (h : list CommandRecord)
  : list CommandRecord :=
  match last h with
  | Some r =>
      (removelast h ++
        [mkRecord (rec_text r) (rec_timestamp r) true (Some command_type) (Some true)])%list
  | None => h
  end.

Definition _record_success (now : Z) (command_type : string) : M Proc unit :=
  modify (fun p =>
    mkProcessor (motor_controller p) (mark_last command_type (command_history p)) now).

Definition conversation_starters : list (string * list string) :=
  [ ("move_forward", ["Alright, "; "Sure thing! "; "Moving forward! "; "Here I go! "]);
    ("move_backward", ["Going back! "; "Backing up! "; "Reversing! "; "Moving backwards! "]);
    ("turn_left", ["Turning left! "; "Going left! "; "Left turn coming up! "]);
    ("turn_right", ["Turning right! "; "Going right! "; "Right turn! "]);
    ("strafe_left", ["Sliding left! "; "Strafing left! "; "Moving sideways! "]);
    ("strafe_right", ["Sliding right! "; "Strafing right! "; "Going sideways! "]);
    ("spin_around", ["Time to spin! "; "Here comes a spin! "; "Spinning around! "]);
    ("dance", ["Let's dance! "; "Time to boogie! "; "Dance time! "]);
    ("come_here", ["Coming to you! "; "On my way! "; "Approaching! "]) ].

Fixpoint starters_of (table : list (string * list string)) (key : string) : list string :=
  match table with
  | [] => [""]
  | (k, l) :: table' => if String.eqb k key then l else starters_of table' key
  end.

(** [random.choice(l) if l else ""]; [pick] is the number the generator draws. *)
Definition choice (pick : nat) (l : list string) : string :=
  default "" (l !! (pick mod length l)%nat).

Fixpoint join (sep : string) (parts : list string) : string :=
  match parts with
  | [] => ""
  | [x] => x
  | x :: rest => x ++ sep ++ join sep rest
  end.

Definition _add_conversational_context (pick : nat) (base_response command_type : string)
    (speed duration : option Z) : string :=
  let starter := choice pick (starters_of conversation_starters command_type) in
  let speed_part :=
    match Control.truthy speed with
    | Some v => if v <=? 35 then ["taking it slow"]
                else if 60 <=? v then ["moving quickly"] else []
    | None => []
    end in
  let duration_part :=
    match Control.truthy duration with
    | Some d => if d <=? 2 then ["just for a moment"]
                else if 5 <=? d then ["for a while"] else []
    | None => []
    end in
  let context := join " and " (speed_part ++ duration_part)%list in
  let context := if String.eqb context "" then "" else " - " ++ context in
  starter ++ base_response ++ context ++ "!".

(** [command_map[command_type]] applied to the keyword arguments that are
    not [None].  [None]: the command type is not in the map.  [inl]: the
    call raises, here the [TypeError] of [voice_come_here(speed=...)],
    which has no such parameter. *)
Definition invoke (command_type : string) (now : Z) (speed duration : option Z)
  : option (string + M W string) :=
  if String.eqb command_type "move_forward" then
    Some (inr (api_voice_move_forward now speed duration))
  else if String.eqb command_type "move_backward" then
    Some (inr (api_voice_move_backward now speed duration))
  else if String.eqb command_type "turn_left" then
    Some (inr (api_voice_turn_left now speed duration))
  else if String.eqb command_type "turn_right" then
    Some (inr (api_voice_turn_right now speed duration))
  else if String.eqb command_type "strafe_left" then
    Some (inr (api_voice_strafe_left now speed duration))
  else if String.eqb command_type "strafe_right" then
    Some (inr (api_voice_strafe_right now speed duration))
  else if String.eqb command_type "spin_around" then
    Some (inr (api_voice_spin_around now speed duration))
  else if String.eqb command_type "dance" then
    Some (inr (api_voice_dance_mode now))
  else if String.eqb command_type "come_here" then
    match speed with
    | Some _ => Some (inl "voice_come_here() got an unexpected keyword argument 'speed'")
    | None => Some (inr (api_voice_come_here now duration))
    end
  else None.

Definition failure (msg : string) : CommandResult := mkResult false msg None None None.

Definition _execute_movement_command (now : Z) (pick : nat) (command_type : string)
    (speed duration : option Z) : M Proc CommandResult :=
  match invoke command_type now speed duration with
  | None => ret (failure ("Unknown command type: " ++ command_type))
  | Some (inl e) => ret (failure ("Sorry, I couldn't execute that movement: " ++ e))
  | Some (inr method) =>
      let* response := on_controller method in
      do _record_success now command_type then
      ret (mkResult true
             (_add_conversational_context pick response command_type speed duration)
             (Some command_type) speed duration)
  end.

(** The [for] loop over [command_patterns] of [process_voice_command]. *)
Fixpoint movement_loop (now : Z) (pick : nat) (table : list (string * list Pattern))
    (text : string) (speed duration : option Z) : M Proc CommandResult :=
  match table with
  | [] => ret (failure "I didn't understand that movement command")
  | (command_type, _) :: table' =>
      if String.eqb command_type "stop" || String.eqb command_type "emergency_stop"
      then movement_loop now pick table' text speed duration
      else if _match_command text command_type
      then _execute_movement_command now pick command_type speed duration
      else movement_loop now pick table' text speed duration
  end.

Definition process_voice_command (now : Z) (pick : nat) (voice_text : string)
  : M Proc CommandResult :=
  match voice_text with
  | EmptyString => ret (failure "No voice input received")
  | _ =>
      let text := strip (lower voice_text) in
      do record_command now text then
      if _match_command text "emergency_stop" then
        let* response := on_controller (api_emergency_stop now) in
        do _record_success now "emergency_stop" then
        ret (mkResult true response (Some "emergency_stop") None None)
      else if _match_command text "stop" then
        do on_controller (api_stop_all_safe now) then
        do _record_success now "stop" then
        ret (mkResult true "Stopping all movement" (Some "stop") None None)
      else
        let speed := _extract_speed text in
        let duration := _extract_duration text in
        movement_loop now pick command_patterns text speed duration
  end.

End Processor.

(** The controller of the robot. *)
#[export] Instance ElleeAPI : MotorControllerAPI Control.World := {|
  api_voice_move_forward := Control.voice_move_forward;
  api_voice_move_backward := Control.voice_move_backward;
  api_voice_turn_left := Control.voice_turn_left;
  api_voice_turn_right := Control.voice_turn_right;
  api_voice_strafe_left := Control.voice_strafe_left;
  api_voice_strafe_right := Control.voice_strafe_right;
  api_voice_spin_around := Control.voice_spin_around;
  api_voice_dance_mode := Control.voice_dance_mode;
  api_voice_come_here := Control.voice_come_here;
  api_stop_all_safe := Control.stop_all_safe;
  api_emergency_stop := Control.emergency_stop
|}.

(** [MockMotorController] of [test_movement_commands]: it has no state,
    and its [speed] defaults to 50. *)
Inductive MockMotorController := mock.

Definition mock_answer (phrase : string) (speed duration : option Z)
  : M MockMotorController string :=
  ret (phrase ++ " at " ++ pretty (default 50 speed) ++ "% speed"
         ++ match Control.truthy duration with
            | Some d => " for " ++ pretty d ++ "s"
            | None => ""
            end).

#[export] Instance MockAPI : MotorControllerAPI MockMotorController := {|
  api_voice_move_forward := fun _ => mock_answer "Moving forward";
  api_voice_move_backward := fun _ => mock_answer "Moving backward";
  api_voice_turn_left := fun _ => mock_answer "Turning left";
  api_voice_turn_right := fun _ => mock_answer "Turning right";
  api_voice_strafe_left := fun _ => mock_answer "Strafing left";
  api_voice_strafe_right := fun _ => mock_answer "Strafing right";
  api_voice_spin_around := fun _ speed duration =>
    ret ("Spinning around at " ++ pretty (default 50 speed) ++ "% speed for "
           ++ pretty (default 2 duration) ++ "s");
  api_voice_dance_mode := fun _ => ret "Starting dance mode!";
  api_voice_come_here := fun _ duration =>
    ret ("Coming to you for " ++ pretty (default 2 duration) ++ "s");
  api_stop_all_safe := fun _ => ret tt;
  api_emergency_stop := fun _ => ret "Emergency stop activated!"
|}.

End Commands.

(** ** enhanced_brain_module_with_movements.py: the MOVING state *)

Module Brain.
Import Commands.

Inductive RobotState :=
| IDLE | LISTENING | THINKING | SPEAKING | ENGAGING | LEARNING | MOVING.

Definition RobotState_eqb (a b : RobotState) : bool :=
  match a, b with
  | IDLE, IDLE | LISTENING, LISTENING | THINKING, THINKING
  | SPEAKING, SPEAKING | ENGAGING, ENGAGING | LEARNING, LEARNING
  | MOVING, MOVING => true
  | _, _ => false
  end.

(** The threads of the brain other than its main loop: the one [_speak]
    starts for each sentence, and the one
    [_process_regular_conversation_enhanced] starts to get an answer. *)
Inductive BrainThread :=
| speak_and_return (text : string)
| generate_enhanced_ai_response (original_speech : string).

(** The part of the brain the movement code reads and writes.
    [movement_processor] holds the motor controller: the brain's
    [self.motor_controller] is that same object.  [messages] are the role
    and content of [current_conversation['messages']].  The speech
    listener, the speech synthesis, the vision, the memory and the
    conversation service are outside the model; [state_lock] is never
    taken twice, so it never blocks. *)
Record EnhancedElleeBrainWithMovement := mkBrain {
  state : RobotState;
  movement_processor : MovementCommandProcessor Control.World;
  movement_enabled : bool;
  person_detected : bool;
  conversation_active : bool;
  movement_timeout : Z;
  thinking_start_time : option Z;
  messages : list (string * string);
  movement_commands : list (string * option string);
  pending : list BrainThread
}.

Definition motor_controller (b : EnhancedElleeBrainWithMovement) : Control.World :=
  Commands.motor_controller (movement_processor b).

Definition init_brain : EnhancedElleeBrainWithMovement :=
  mkBrain IDLE (new_processor Control.init_world) true false false 30 None [] [] [].

Definition set_state (s : RobotState) (b : EnhancedElleeBrainWithMovement) :=
  mkBrain s (movement_processor b) (movement_enabled b) (person_detected b)
    (conversation_active b) (movement_timeout b) (thinking_start_time b)
    (messages b) (movement_commands b) (pending b).

Definition set_processor p (b : EnhancedElleeBrainWithMovement) :=
  mkBrain (state b) p (movement_enabled b) (person_detected b)
    (conversation_active b) (movement_timeout b) (thinking_start_time b)
    (messages b) (movement_commands b) (pending b).

Definition set_presence person active (b : EnhancedElleeBrainWithMovement) :=
  mkBrain (state b) (movement_processor b) (movement_enabled b) person
    active (movement_timeout b) (thinking_start_time b)
    (messages b) (movement_commands b) (pending b).

Definition set_thinking_start_time t (b : EnhancedElleeBrainWithMovement) :=
  mkBrain (state b) (movement_processor b) (movement_enabled b) (person_detected b)
    (conversation_active b) (movement_timeout b) t
    (messages b) (movement_commands b) (pending b).

Definition set_messages msgs (b : EnhancedElleeBrainWithMovement) :=
  mkBrain (state b) (movement_processor b) (movement_enabled b) (person_detected b)
    (conversation_active b) (movement_timeout b) (thinking_start_time b)
    msgs (movement_commands b) (pending b).

Definition set_movement_commands cmds (b : EnhancedElleeBrainWithMovement) :=
  mkBrain (state b) (movement_processor b) (movement_enabled b) (person_detected b)
    (conversation_active b) (movement_timeout b) (thinking_start_time b)
    (messages b) cmds (pending b).

Definition set_pending ths (b : EnhancedElleeBrainWithMovement) :=
  mkBrain (state b) (movement_processor b) (movement_enabled b) (person_detected b)
    (conversation_active b) (movement_timeout b) (thinking_start_time b)
    (messages b) (movement_commands b) ths.

Local Abbreviation B := EnhancedElleeBrainWithMovement.

(** A call of a method of [self.movement_processor] or, through it, of
    [self.motor_controller]. *)
Definition on_processor {A} (c : M (MovementCommandProcessor Control.World) A) : M B A :=
  fun b =>
    match c (movement_processor b) with
    | Returned a p => Returned a (set_processor p b)
    | Blocked p => Blocked (set_processor p b)
    end.

Definition add_message (role content : string) : M B unit :=
  modify (fun b => set_messages (messages b ++ [(role, content)])%list b).

Definition start_thread (t : BrainThread) : M B unit :=
  modify (fun b => set_pending (pending b ++ [t])%list b).

Definition _transition_to_idle : M B unit := modify (set_state IDLE).
Definition _transition_to_listening : M B unit := modify (set_state LISTENING).
Definition _transition_to_thinking : M B unit := modify (set_state THINKING).
Definition _transition_to_speaking : M B unit := modify (set_state SPEAKING).
Definition _transition_to_moving : M B unit := modify (set_state MOVING).

Definition _speak (text : string) : M B unit :=
  let* b := gets id in
  do (if negb (RobotState_eqb (state b) MOVING) then _transition_to_speaking
      else ret tt) then
  start_thread (speak_and_return text).

(** The thread of [_speak] once the sentence is spoken. *)
Definition _speak_and_return : M B unit :=
  let* b := gets id in
  if RobotState_eqb (state b) SPEAKING then
    if conversation_active b && person_detected b then _transition_to_listening
    else if negb (person_detected b) then _transition_to_idle
    else ret tt
  else ret tt.

Definition _process_regular_conversation_enhanced (now : Z) (speech_text : string)
  : M B unit :=
  do _transition_to_thinking then
  do modify (set_thinking_start_time (Some now)) then
  do add_message "user" speech_text then
  start_thread (generate_enhanced_ai_response speech_text).

(** The thread of [_generate_enhanced_ai_response] once the conversation
    service has answered or failed: [inl] is the answer it speaks and
    records, [inr] the fallback sentence it speaks instead.  Its [finally]
    clause then returns to LISTENING. *)
Definition _generate_enhanced_ai_response (answer : string + string) : M B unit :=
  do match answer with
     | inl response =>
         do add_message "assistant" response then
         _speak response
     | inr fallback => _speak fallback
     end then
  _transition_to_listening.

(** Thread number [i] goes on to its end; [None] when there is no such
    thread. *)
Definition run_brain_thread (i : nat) (answer : string + string) (b : B)
  : option (Outcome B unit) :=
  match pending b !! i with
  | Some (speak_and_return _) =>
      Some (_speak_and_return (set_pending (delete i (pending b)) b))
  | Some (generate_enhanced_ai_response _) =>
      Some (_generate_enhanced_ai_response answer (set_pending (delete i (pending b)) b))
  | None => None
  end.

Definition _handle_movement_state (now : Z) : M B unit :=
  let* b := gets id in
  if movement_enabled b then
    let status := Control.get_movement_status now (Control.self (motor_controller b)) in
    if negb (Control.st_is_moving status) then
      if person_detected b then _transition_to_listening else _transition_to_idle
    else
      if 1000 * movement_timeout b <? Control.st_movement_duration status then
        on_processor (on_controller (Control.stop_all_safe now))
      else ret tt
  else _transition_to_listening.

(** The update of the project memory at the end of the successful branch
    is left out: it does not touch the state of the brain. *)
Definition _process_movement_command (now : Z) (pick : nat) (speech_text : string)
  : M B unit :=
  do _transition_to_moving then
  do add_message "user" speech_text then
  let* result := on_processor (process_voice_command now pick speech_text) in
  if success result then
    do modify (fun b => set_movement_commands
                 (movement_commands b ++ [(speech_text, command_type result)])%list b) then
    _speak (response result)
  else
    do _speak ("Sorry, I couldn't execute that movement command: " ++ response result) then
    _transition_to_listening.

(** The movement branch of [_process_speech_with_movement]; [None] when
    the utterance goes on to the other handlers. *)
Definition _process_speech_with_movement (now : Z) (pick : nat) (speech_text : string)
    (b : B) : option (Outcome B unit) :=
  if movement_enabled b && is_movement_command speech_text
  then Some (_process_movement_command now pick speech_text b)
  else None.

(** The THINKING branch of the main loop; [now] is the time read at the
    top of the loop. *)
Definition main_loop_thinking (now : Z) : M B unit :=
  let* b := gets id in
  if 1000 * 5 <? now - default now (thinking_start_time b) then
    if person_detected b then _transition_to_listening else _transition_to_idle
  else ret tt.

(** One turn of the main loop in the two states that do not call the
    collaborators. *)
Definition main_loop_step (now : Z) (b : B) : option (Outcome B unit) :=
  match state b with
  | THINKING => Some (main_loop_thinking now b)
  | MOVING => Some (_handle_movement_state now b)
  | _ => None
  end.

End Brain.

(** * Vocabulary of the properties *)

Import Motor.

(** Both duties are percentages and at most one of them is not zero. *)
Definition duty_ok (m : Motor Z) : Prop :=
  0 <= speed_f m <= 100 /\ 0 <= speed_r m <= 100 /\ (speed_f m = 0 \/ speed_r m = 0).

Definition wheels_ok (c : SOMEBODY4MotorController Z) : Prop :=
  forall name m, motors c !! name = Some m -> duty_ok m.

(** A sequence of calls [set_motor_speed(name, speed)]. *)
Definition set_motor_speeds (calls : list (string * Z)) (c : SOMEBODY4MotorController Z)
  : SOMEBODY4MotorController Z :=
  foldl (fun c call => set_motor_speed (fst call) (snd call) c) c calls.

(** What [set_motor_speed] stores for a wheel that exists. *)
Definition split_duty (speed : Z) (m : Motor Z) : Motor Z :=
  let speed := Z.max (-100) (Z.min 100 speed) in
  mkMotor (RPWM m) (LPWM m) (Z.max speed 0) (Z.max (- speed) 0).

(** A stopped wheel. *)
Definition zero (m : Motor Z) : Motor Z := mkMotor (RPWM m) (LPWM m) 0 0.

(** [max(-100, min(100, speed))] *)
Definition clamp100 (speed : Z) : Z := Z.max (-100) (Z.min 100 speed).

(** The controller has the four wheels the gaits drive. *)
Definition has_wheels (c : SOMEBODY4MotorController Z) : Prop :=
  is_Some (motors c !! "FL") /\ is_Some (motors c !! "FR") /\
  is_Some (motors c !! "BL") /\ is_Some (motors c !! "BR").

(** Signed duties of the four wheels of a wheel driver, in the order FL,
    FR, BL, BR. *)
Definition duties (c : SOMEBODY4MotorController Z) : list (option Z) :=
  map (duty_Z c) ["FL"; "FR"; "BL"; "BR"].

(** [stop_all] over a given list of wheel names. *)
Definition stop_names (names : list string) (c : SOMEBODY4MotorController Z)
  : SOMEBODY4MotorController Z :=
  foldl (fun c motor_name => set_motor_speed motor_name 0 c) c names.

Import Control.

(** The controller after [_end_movement] at time [now]. *)
Definition ended (now : Z) (c : ElleeMotorController) : ElleeMotorController :=
  mkEllee (base c) (default_speed c) (max_safe_speed c) (current_speed c)
    false "stopped" None (emergency_stop_active c) (movement_timeout c) false
    (if is_moving c then
       let h := (movement_history c ++
                 [mkEntry (current_action c) (elapsed now (movement_start_time c))
                          (current_speed c) now])%list in
       if (50 <? length h)%nat then last50 h else h
     else movement_history c)
    (total_movements c).

(** While no thread is stuck on the lock, a movement in progress has a
    watchdog that is still asleep. *)
Definition watched (w : World) : Prop :=
  safety_lock (self w) = false -> is_moving (self w) = true -> watchdogs w <> [].

(** The speed cap is the one of [__init__] and the current speed is
    within it. *)
Definition speed_capped (w : World) : Prop :=
  max_safe_speed (self w) = 70 /\ 0 <= current_speed (self w) <= 70.

(** The nine gaits of the wheel driver. *)
Definition gaits : list (Z -> SOMEBODY4MotorController Z -> SOMEBODY4MotorController Z) :=
  [ move_forward; move_backward; turn_left; turn_right; strafe_left;
    strafe_right; diagonal_forward_left; diagonal_forward_right; spin_clockwise ].

(** What a thread that is stuck on the lock keeps other callers from
    changing: with the lock held in [c], the movement state, the flag, the
    history and the counter of [c] are those of [c0]. *)
Definition frozen (c0 c : ElleeMotorController) : Prop :=
  safety_lock c = true /\
  is_moving c = is_moving c0 /\
  current_action c = current_action c0 /\
  movement_start_time c = movement_start_time c0 /\
  emergency_stop_active c = emergency_stop_active c0 /\
  movement_history c = movement_history c0 /\
  total_movements c = total_movements c0.

(** The history holds at most 50 movements and the watchdog delay is
    between 5 and 30 seconds. *)
Definition bounded (w : World) : Prop :=
  (length (movement_history (self w)) <= 50)%nat /\
  5 <= movement_timeout (self w) <= 30.

(** How a command of the processor leaves the history [h] it found:
    untouched when it fails or blocks, with the last record marked when it
    succeeds. *)
Definition settles {W : Type} (now : Z) (h : list Commands.CommandRecord)
    (o : Outcome (Commands.MovementCommandProcessor W) Commands.CommandResult) : Prop :=
  match o with
  | Blocked p' => Commands.command_history p' = h
  | Returned res p' =>
      if Commands.success res then
        exists ct, Commands.command_type res = Some ct /\
                   Commands.command_history p' = Commands.mark_last ct h /\
                   Commands.last_command_time p' = now
      else Commands.command_history p' = h
  end.

(** Splits the controller of a world into its fields and decides the
    three flags that steer every method. *)
Ltac flags w :=
  let c := fresh "c" in
  let ths := fresh "ths" in
  let lk := fresh "lk" in
  let em := fresh "em" in
  let mv := fresh "mv" in
  destruct w as [c ths];
  destruct c as [? ? ? ? mv ? ? em ? lk ? ?];
  destruct lk, em, mv.

(** Closes a goal that says the watchdogs of a freshly extended pool are
    not empty. *)
Ltac spawned :=
  unfold watchdogs; cbn; rewrite ?filter_app, ?filter_cons; cbn;
  by destruct (filter _ _).

(** * Properties *)

(** ** The wheel driver *)

Section WheelDriver.

Implicit Types (c : SOMEBODY4MotorController Z) (m : Motor Z).

Lemma py_max_Z (a b : Z) : py_max a b = Z.max a b.
Proof. unfold py_max; simpl. destruct (Z.ltb_spec a b); lia. Qed.

Lemma py_min_Z (a b : Z) : py_min a b = Z.min a b.
Proof. unfold py_min; simpl. destruct (Z.ltb_spec b a); lia. Qed.

Lemma set_motors_id c : set_motors (motors c) c = c.
Proof. by destruct c. Qed.

Lemma set_motor_speed_motors name speed c :
  motors (set_motor_speed name speed c) = alter (split_duty speed) name (motors c).
Proof.
  unfold set_motor_speed. apply map_eq; intros k.
  rewrite lookup_alter.
  destruct (motors c !! name) as [m|] eqn:Hm.
  - rewrite py_max_Z, py_min_Z. unfold split_duty; simpl.
    set (v := Z.max (-100) (Z.min 100 speed)).
    destruct (Z.ltb_spec 0 v); [|destruct (Z.ltb_spec v 0)]; simpl;
      rewrite lookup_insert; case_decide; subst; rewrite ?Hm; simpl;
      try done; f_equal; f_equal; lia.
  - case_decide; subst; by rewrite ?Hm.
Qed.

Lemma set_motor_speed_pwm name speed c :
  pwm_running (set_motor_speed name speed c) = pwm_running c /\
  pwm_frequency (set_motor_speed name speed c) = pwm_frequency c.
Proof.
  unfold set_motor_speed. destruct (motors c !! name); [|done].
  by repeat case_match.
Qed.

Lemma split_duty_ok speed m : duty_ok (split_duty speed m).
Proof. unfold duty_ok, split_duty; simpl. lia. Qed.

Lemma set_motor_speed_ok name speed c :
  wheels_ok c -> wheels_ok (set_motor_speed name speed c).
Proof.
  intros Hc k m. rewrite set_motor_speed_motors, lookup_alter.
  case_decide; subst.
  - destruct (motors c !! k) as [m0|]; simpl; [|done].
    intros [= <-]. apply split_duty_ok.
  - apply Hc.
Qed.

Lemma init_ok : wheels_ok (Motor.init (N := Z)).
Proof.
  intros k m. unfold Motor.init; simpl.
  rewrite !lookup_insert. repeat case_decide; subst;
    try (intros [= <-]; unfold duty_ok; simpl; lia).
Qed.

Lemma set_motor_speeds_ok calls c :
  wheels_ok c -> wheels_ok (set_motor_speeds calls c).
Proof.
  revert c. induction calls as [|[name speed] calls IH]; intros c Hc; [done|].
  apply IH. by apply set_motor_speed_ok.
Qed.

End WheelDriver.

(** C8.  After any sequence of [set_motor_speed] calls on a new
    controller, with any wheel names and any integer speeds, every wheel's
    [speed_f] and [speed_r] are between 0 and 100 and at least one of the
    two is 0. *)
Theorem C8_duties_exclusive (calls : list (string * Z)) (name : string) (m : Motor Z) :
  motors (set_motor_speeds calls Motor.init) !! name = Some m ->
  0 <= speed_f m <= 100 /\ 0 <= speed_r m <= 100 /\ (speed_f m = 0 \/ speed_r m = 0).
Proof. apply (set_motor_speeds_ok calls Motor.init init_ok). Qed.

Lemma C8_duties_exclusive_witness :
  motors (set_motor_speeds [("FL", 250); ("FR", -30); ("FL", -7); ("XX", 5)] Motor.init)
    !! "FL" = Some (mkMotor 11 13 0 7) /\
  (0 <= 0 <= 100 /\ 0 <= 7 <= 100 /\ (0 = 0 \/ 7 = 0)).
Proof.
  split; [vm_compute; reflexivity|].
  apply (C8_duties_exclusive [("FL", 250); ("FR", -30); ("FL", -7); ("XX", 5)]
           "FL" (mkMotor 11 13 0 7)).
  vm_compute; reflexivity.
Defined.

(** *** [stop_all] *)

Section StopAll.

Implicit Types (c : SOMEBODY4MotorController Z) (m : Motor Z).

Lemma zero_zero m : zero (zero m) = zero m.
Proof. done. Qed.

Lemma stop_names_lookup names c k :
  motors (stop_names names c) !! k =
  if decide (k ∈ names) then zero <$> motors c !! k else motors c !! k.
Proof.
  revert c. induction names as [|n names IH]; intros c; simpl.
  - done.
  - rewrite IH.
    rewrite set_motor_speed_motors, lookup_alter.
    change (split_duty 0) with zero.
    destruct (decide (n = k)) as [->|Hne].
    + rewrite (decide_True (P := k ∈ k :: names)) by set_solver.
      destruct (decide (k ∈ names)); destruct (motors c !! k); done.
    + destruct (decide (k ∈ names)).
      * by rewrite decide_True by set_solver.
      * by rewrite decide_False by (rewrite elem_of_cons; intros [?|?]; done).
Qed.

Lemma stop_names_pwm names c :
  pwm_running (stop_names names c) = pwm_running c /\
  pwm_frequency (stop_names names c) = pwm_frequency c.
Proof.
  revert c. induction names as [|n names IH]; intros c; simpl; [done|].
  fold (stop_names names (set_motor_speed n 0 c)).
  destruct (IH (set_motor_speed n 0 c)) as [-> ->].
  apply set_motor_speed_pwm.
Qed.

Lemma stop_all_eq c : Motor.stop_all c = set_motors (zero <$> motors c) c.
Proof.
  unfold Motor.stop_all. change (num_of_Z 0) with 0.
  fold (stop_names (elements (dom (motors c))) c).
  destruct (stop_names_pwm (elements (dom (motors c))) c) as [Hr Hf].
  destruct (stop_names (elements (dom (motors c))) c) as [ms r f] eqn:E.
  simpl in *. subst. unfold set_motors. f_equal.
  apply map_eq; intros k.
  pose proof (stop_names_lookup (elements (dom (motors c))) c k) as Hk.
  rewrite E in Hk; simpl in Hk. rewrite Hk, lookup_fmap.
  case_decide as Hin; [done|].
  rewrite elem_of_elements, elem_of_dom in Hin.
  destruct (motors c !! k); [|done]. exfalso; eauto.
Qed.

Lemma stop_all_idem c : Motor.stop_all (Motor.stop_all c) = Motor.stop_all c.
Proof.
  rewrite !stop_all_eq. unfold set_motors; simpl. f_equal.
  rewrite <- map_fmap_compose. apply map_fmap_ext. by intros k m _.
Qed.

Lemma stop_all_zero c name m :
  motors (Motor.stop_all c) !! name = Some m -> speed_f m = 0 /\ speed_r m = 0.
Proof.
  rewrite stop_all_eq; simpl. rewrite lookup_fmap.
  destruct (motors c !! name); simpl; [|done]. by intros [= <-].
Qed.

End StopAll.

(** *** The duties a gait sets *)

Section Duties.

Implicit Types (c : SOMEBODY4MotorController Z) (m : Motor Z).

Lemma split_duty_signed v m :
  speed_f (split_duty v m) - speed_r (split_duty v m) = clamp100 v.
Proof. unfold split_duty, clamp100; simpl. lia. Qed.

Lemma clamp100_opp s : clamp100 (- s) = - clamp100 s.
Proof. unfold clamp100. lia. Qed.

Lemma clamp100_id s : -100 <= s <= 100 -> clamp100 s = s.
Proof. unfold clamp100. lia. Qed.

Lemma duty_set_motor_speed name v c n :
  duty_Z (set_motor_speed name v c) n =
  if decide (name = n) then (fun _ => clamp100 v) <$> duty_Z c n else duty_Z c n.
Proof.
  unfold duty_Z. rewrite set_motor_speed_motors, lookup_alter.
  case_decide; [subst|done].
  destruct (motors c !! n) as [m|]; [|done].
  cbn [fmap option_fmap option_map]. f_equal. apply split_duty_signed.
Qed.

Lemma set4_duties fl fr bl br c :
  has_wheels c ->
  duties (set4 fl fr bl br c) =
  [Some (clamp100 fl); Some (clamp100 fr); Some (clamp100 bl); Some (clamp100 br)].
Proof.
  intros ([m1 H1] & [m2 H2] & [m3 H3] & [m4 H4]).
  unfold duties, set4. cbn [map].
  rewrite !duty_set_motor_speed.
  repeat (rewrite decide_False by done).
  repeat (rewrite decide_True by done).
  repeat (rewrite decide_False by done).
  unfold duty_Z. by rewrite H1, H2, H3, H4.
Qed.

Lemma init_has_wheels : has_wheels Motor.init.
Proof. unfold has_wheels. repeat split; vm_compute; eexists; reflexivity. Qed.

End Duties.

(** ** The safety supervisor *)


Section Supervisor.

Implicit Types (w : World) (c : ElleeMotorController).

Lemma _end_movement_free now w :
  safety_lock (self w) = false ->
  _end_movement now w = Returned tt (mkWorld (ended now (self w)) (threads w)).
Proof.
  intros Hl. unfold _end_movement, with_safety_lock. rewrite Hl.
  unfold bind, upd, modify, gets, ret; simpl.
  unfold ended. destruct (is_moving (self w)); reflexivity.
Qed.

Lemma _end_movement_held now w :
  safety_lock (self w) = true -> _end_movement now w = Blocked w.
Proof. intros Hl. unfold _end_movement, with_safety_lock. by rewrite Hl. Qed.

Lemma stop_all_safe_free now w :
  safety_lock (self w) = false ->
  stop_all_safe now w =
  Returned tt (mkWorld (ended now (set_base (Motor.stop_all (base (self w))) (self w)))
                       (threads w)).
Proof.
  intros Hl. unfold stop_all_safe, bind, super_stop_all, upd, modify.
  by rewrite _end_movement_free.
Qed.

Lemma stop_all_safe_held now w :
  safety_lock (self w) = true ->
  stop_all_safe now w =
  Blocked (mkWorld (set_base (Motor.stop_all (base (self w))) (self w)) (threads w)).
Proof.
  intros Hl. unfold stop_all_safe, bind, super_stop_all, upd, modify.
  by rewrite _end_movement_held.
Qed.

Lemma stop_all_safe_returned now w w1 :
  stop_all_safe now w = Returned tt w1 ->
  safety_lock (self w) = false /\
  w1 = mkWorld (ended now (set_base (Motor.stop_all (base (self w))) (self w)))
               (threads w).
Proof.
  destruct (safety_lock (self w)) eqn:Hl.
  - by rewrite stop_all_safe_held.
  - rewrite stop_all_safe_free by done. by intros [= <-].
Qed.

End Supervisor.



(** *** The speed cap along a run *)

Section SpeedCap.

Implicit Types (w : World).

(** Proves that a call keeps [speed_capped]. *)
Ltac capped w :=
  unfold speed_capped; intros [Hmax Hcs]; flags w; simpl in Hmax, Hcs; subst;
  cbn -[py_max py_min Z.add Z.mul Z.sub]; rewrite ?py_max_Z, ?py_min_Z;
  try (split; [reflexivity|lia]).

Lemma capped_voice_directional a gait phrase now speed duration w :
  speed_capped w ->
  speed_capped (final (voice_directional a gait phrase now speed duration w)).
Proof.
  destruct duration as [d|]; [unfold voice_directional, truthy; destruct (d =? 0)|];
    capped w.
Qed.

Lemma capped_voice_spin_around now speed duration w :
  speed_capped w -> speed_capped (final (voice_spin_around now speed duration w)).
Proof. capped w. Qed.

Lemma capped_voice_dance_mode now w :
  speed_capped w -> speed_capped (final (voice_dance_mode now w)).
Proof. capped w. Qed.

Lemma capped_voice_come_here now duration w :
  speed_capped w -> speed_capped (final (voice_come_here now duration w)).
Proof. capped w. Qed.

Lemma capped_stop_all_safe now w :
  speed_capped w -> speed_capped (final (stop_all_safe now w)).
Proof. capped w. Qed.

Lemma capped_emergency_stop now w :
  speed_capped w -> speed_capped (final (emergency_stop now w)).
Proof. capped w. Qed.

Lemma capped_set_speed_limit speed w :
  speed_capped w -> speed_capped (final (set_speed_limit speed w)).
Proof. capped w. Qed.

Lemma capped_set_movement_preferences pref_speed pref_timeout w :
  speed_capped w ->
  speed_capped (final (set_movement_preferences pref_speed pref_timeout w)).
Proof. destruct pref_speed, pref_timeout; capped w. Qed.

Lemma capped_run_thread now i w o :
  speed_capped w -> run_thread now i w = Some o -> speed_capped (final o).
Proof.
  unfold run_thread. intros Hw.
  destruct (threads w !! i) as [t|] eqn:Hi; [|done].
  destruct (wake_time t <=? now); [|done]. intros [= <-]. clear Hi.
  revert Hw. destruct t as [wk|wk|wk|[|m moves] wk]; capped w.
Qed.

Lemma capped_exec now e w w' :
  speed_capped w -> exec now e w = Some w' -> speed_capped w'.
Proof.
  intros Hw.
  destruct e as [s d|s d|s d|s d|s d|s d|s d| |d| | |s|s t|i]; simpl;
    try (intros [= <-]).
  1-6: by apply capped_voice_directional.
  - by apply capped_voice_spin_around.
  - by apply capped_voice_dance_mode.
  - by apply capped_voice_come_here.
  - by apply capped_stop_all_safe.
  - by apply capped_emergency_stop.
  - by apply capped_set_speed_limit.
  - by apply capped_set_movement_preferences.
  - destruct (run_thread now i w) as [o|] eqn:Ho; simpl; [|done].
    intros [= <-]. by eapply capped_run_thread.
Qed.

Lemma capped_run trace : forall last w w',
  speed_capped w -> run last trace w = Some w' -> speed_capped w'.
Proof.
  induction trace as [|[now e] trace IH]; intros last w w' Hw; simpl.
  - by intros [= <-].
  - destruct (last <=? now); [|done].
    destruct (exec now e w) as [w1|] eqn:He; [|done].
    apply IH. by eapply capped_exec.
Qed.

Lemma capped_init : speed_capped init_world.
Proof. unfold speed_capped; simpl. lia. Qed.

End SpeedCap.

(** C4.  For every requested integer speed, [set_speed_limit] returns a
    speed between 0 and [max_safe_speed] and stores that speed as
    [current_speed], for a controller whose [max_safe_speed] is not
    negative.  Along every run of a new controller [max_safe_speed] is 70
    and [current_speed] is between 0 and 70. *)
Theorem C4_speed_limit (s : Z) :
  (forall w,
     0 <= max_safe_speed (self w) ->
     exists r w',
       set_speed_limit s w = Returned r w' /\
       0 <= r <= max_safe_speed (self w) /\
       current_speed (self w') = r /\
       max_safe_speed (self w') = max_safe_speed (self w)) /\
  (forall trace w,
     run 0 trace init_world = Some w ->
     max_safe_speed (self w) = 70 /\ 0 <= current_speed (self w) <= 70).
Proof.
  split.
  - intros w Hmax. unfold set_speed_limit, bind, gets, upd, modify, ret.
    do 2 eexists. split; [reflexivity|]. simpl.
    rewrite py_max_Z, py_min_Z. repeat split; lia.
  - intros trace w Hrun. exact (capped_run trace 0 init_world w capped_init Hrun).
Qed.

Lemma C4_speed_limit_witness :
  exists r w',
    set_speed_limit 250 init_world = Returned r w' /\
    0 <= r <= 70 /\ current_speed (self w') = r /\ max_safe_speed (self w') = 70.
Proof. apply (proj1 (C4_speed_limit 250) init_world). simpl. lia. Defined.

Example set_speed_limit_above : returned (set_speed_limit 250 init_world) = true /\
  current_speed (self (final (set_speed_limit 250 init_world))) = 70.
Proof. split; reflexivity. Qed.

Example set_speed_limit_below :
  current_speed (self (final (set_speed_limit (-3) init_world))) = 0.
Proof. reflexivity. Qed.

(** An admitted directional command sets the gait at the requested speed
    brought within the cap, or at the current speed when none or 0 is
    requested. *)
Lemma voice_directional_admitted a gait phrase now speed duration (w : World) :
  safety_lock (self w) = false -> emergency_stop_active (self w) = false ->
  let v := Z.max 0 (Z.min (max_safe_speed (self w))
                          (py_or speed (current_speed (self w)))) in
  let o := voice_directional a gait phrase now speed duration w in
  returned o = true /\
  base (self (final o)) = gait v (base (self w)) /\
  current_speed (self (final o)) = v /\
  is_moving (self (final o)) = true /\
  current_action (self (final o)) = a.
Proof.
  intros Hl He v o. subst v o. rewrite <- py_max_Z, <- py_min_Z.
  destruct w as [c ths]. destruct c. simpl in *. subst.
  unfold voice_directional, truthy.
  destruct duration as [d|]; [destruct (d =? 0)|];
    cbn -[py_max py_min Z.add Z.mul py_or]; done.
Qed.

Lemma voice_spin_around_admitted now speed duration (w : World) :
  safety_lock (self w) = false -> emergency_stop_active (self w) = false ->
  let v := Z.max 0 (Z.min (max_safe_speed (self w))
                          (py_or speed (current_speed (self w) - 10))) in
  let o := voice_spin_around now speed duration w in
  returned o = true /\
  base (self (final o)) = Motor.spin_clockwise v (base (self w)) /\
  current_speed (self (final o)) = v /\
  is_moving (self (final o)) = true.
Proof.
  intros Hl He v o. subst v o. rewrite <- py_max_Z, <- py_min_Z.
  destruct w as [c ths]. destruct c. simpl in *. subst.
  unfold voice_spin_around.
  cbn -[py_max py_min Z.add Z.mul Z.sub py_or]; done.
Qed.

(** The wheels after an admitted directional command with requested
    speed 0, for a gait that sets the four wheels by [set4]. *)
Lemma voice_directional_zero_wheels a gait phrase now duration (w : World)
    (fl fr bl br : Z -> Z) :
  (forall v c, gait v c = set4 (fl v) (fr v) (bl v) (br v) c) ->
  safety_lock (self w) = false -> emergency_stop_active (self w) = false ->
  0 <= current_speed (self w) <= max_safe_speed (self w) ->
  has_wheels (base (self w)) ->
  let s := current_speed (self w) in
  let o := voice_directional a gait phrase now (Some 0) duration w in
  returned o = true /\
  current_speed (self (final o)) = s /\
  wheels (final o) = [Some (clamp100 (fl s)); Some (clamp100 (fr s));
                      Some (clamp100 (bl s)); Some (clamp100 (br s))].
Proof.
  intros Hg Hl He Hs Hw s o.
  destruct (voice_directional_admitted a gait phrase now (Some 0) duration w Hl He)
    as (Hr & Hb & Hc & _).
  assert (Z.max 0 (Z.min (max_safe_speed (self w)) (py_or (Some 0) (current_speed (self w))))
          = s) as Hv by (unfold py_or; simpl; lia).
  rewrite Hv in Hb, Hc. subst o. split; [exact Hr|]. split; [exact Hc|].
  change (wheels ?x) with (duties (base (self x))).
  rewrite Hb, Hg. by apply set4_duties.
Qed.

Lemma voice_spin_around_zero_wheels now duration (w : World) :
  safety_lock (self w) = false -> emergency_stop_active (self w) = false ->
  0 <= current_speed (self w) <= max_safe_speed (self w) ->
  max_safe_speed (self w) <= 100 ->
  has_wheels (base (self w)) ->
  let k := Z.max 0 (current_speed (self w) - 10) in
  let o := voice_spin_around now (Some 0) duration w in
  returned o = true /\
  current_speed (self (final o)) = k /\
  wheels (final o) = [Some k; Some (- k); Some k; Some (- k)].
Proof.
  intros Hl He Hs Hmax Hw k o.
  destruct (voice_spin_around_admitted now (Some 0) duration w Hl He)
    as (Hr & Hb & Hc & _).
  assert (Z.max 0 (Z.min (max_safe_speed (self w))
                         (py_or (Some 0) (current_speed (self w) - 10)))
          = k) as Hk by (unfold py_or; simpl; lia).
  rewrite Hk in Hb, Hc. subst o. split; [exact Hr|]. split; [exact Hc|].
  change (wheels ?x) with (duties (base (self x))).
  rewrite Hb. unfold Motor.spin_clockwise. change (num_neg k) with (- k).
  rewrite set4_duties by done.
  rewrite clamp100_opp, clamp100_id by lia. done.
Qed.

(** C10, as stated, fails for [voice_spin_around]: on a new controller,
    whose current speed is 50, a requested speed of 0 makes it spin at 40,
    not at 50. *)
Lemma C10_spin_is_slower :
  let o := voice_spin_around 1000 (Some 0) None init_world in
  current_speed (self init_world) = 50 /\
  returned o = true /\
  wheels (final o) = [Some 40; Some (-40); Some 40; Some (-40)] /\
  current_speed (self (final o)) = 40.
Proof. vm_compute. by repeat split. Qed.

(** C10, amended.  For the six directional voice commands and for
    [voice_spin_around] a requested speed of 0 is the same call as no
    requested speed.  When the command is admitted, the current speed [s]
    is within a cap of at most 100 and the controller has its four wheels,
    the six directional commands return and drive the wheels at [s], not at
    0, with the signs of their gait for FL, FR, BL, BR, and leave the
    current speed [s]; [voice_spin_around] returns and spins + - + - at
    [s - 10], or at 0 when [s] is below 10.  On a new controller that is 50
    for the directional commands and 40 for the spin. *)
Theorem C10_zero_speed_is_no_speed (now : Z) (duration : option Z) (w : World) :
  (voice_move_forward now (Some 0) duration w = voice_move_forward now None duration w /\
   voice_move_backward now (Some 0) duration w = voice_move_backward now None duration w /\
   voice_turn_left now (Some 0) duration w = voice_turn_left now None duration w /\
   voice_turn_right now (Some 0) duration w = voice_turn_right now None duration w /\
   voice_strafe_left now (Some 0) duration w = voice_strafe_left now None duration w /\
   voice_strafe_right now (Some 0) duration w = voice_strafe_right now None duration w /\
   voice_spin_around now (Some 0) duration w = voice_spin_around now None duration w) /\
  (safety_lock (self w) = false -> emergency_stop_active (self w) = false ->
   0 <= current_speed (self w) <= max_safe_speed (self w) ->
   max_safe_speed (self w) <= 100 ->
   has_wheels (base (self w)) ->
   let s := current_speed (self w) in
   let k := Z.max 0 (s - 10) in
   let forward := voice_move_forward now (Some 0) duration w in
   let backward := voice_move_backward now (Some 0) duration w in
   let left := voice_turn_left now (Some 0) duration w in
   let right := voice_turn_right now (Some 0) duration w in
   let sleft := voice_strafe_left now (Some 0) duration w in
   let sright := voice_strafe_right now (Some 0) duration w in
   let spin := voice_spin_around now (Some 0) duration w in
   (returned forward = true /\ current_speed (self (final forward)) = s /\
    wheels (final forward) = [Some s; Some s; Some s; Some s]) /\
   (returned backward = true /\ current_speed (self (final backward)) = s /\
    wheels (final backward) = [Some (- s); Some (- s); Some (- s); Some (- s)]) /\
   (returned left = true /\ current_speed (self (final left)) = s /\
    wheels (final left) = [Some (- s); Some s; Some (- s); Some s]) /\
   (returned right = true /\ current_speed (self (final right)) = s /\
    wheels (final right) = [Some s; Some (- s); Some s; Some (- s)]) /\
   (returned sleft = true /\ current_speed (self (final sleft)) = s /\
    wheels (final sleft) = [Some (- s); Some s; Some s; Some (- s)]) /\
   (returned sright = true /\ current_speed (self (final sright)) = s /\
    wheels (final sright) = [Some s; Some (- s); Some (- s); Some s]) /\
   (returned spin = true /\ current_speed (self (final spin)) = k /\
    wheels (final spin) = [Some k; Some (- k); Some k; Some (- k)])) /\
  (wheels (final (voice_move_forward now (Some 0) duration init_world))
     = [Some 50; Some 50; Some 50; Some 50] /\
   wheels (final (voice_move_backward now (Some 0) duration init_world))
     = [Some (-50); Some (-50); Some (-50); Some (-50)] /\
   wheels (final (voice_turn_left now (Some 0) duration init_world))
     = [Some (-50); Some 50; Some (-50); Some 50] /\
   wheels (final (voice_turn_right now (Some 0) duration init_world))
     = [Some 50; Some (-50); Some 50; Some (-50)] /\
   wheels (final (voice_strafe_left now (Some 0) duration init_world))
     = [Some (-50); Some 50; Some 50; Some (-50)] /\
   wheels (final (voice_strafe_right now (Some 0) duration init_world))
     = [Some 50; Some (-50); Some (-50); Some 50] /\
   wheels (final (voice_spin_around now (Some 0) duration init_world))
     = [Some 40; Some (-40); Some 40; Some (-40)]).
Proof.
  split; [by repeat split|]. split.
  - intros Hl He Hs Hmax Hw s k forward backward left right sleft sright spin.
    assert (clamp100 (current_speed (self w)) = current_speed (self w)) as Hcs
      by (apply clamp100_id; lia).
    assert (clamp100 (- current_speed (self w)) = - current_speed (self w)) as Hcn
      by (apply clamp100_id; lia).
    subst s k forward backward left right sleft sright spin.
    split; [|split; [|split; [|split; [|split; [|split]]]]].
    + destruct (voice_directional_zero_wheels "moving forward" Motor.move_forward
                  "Moving forward" now duration w id id id id) as (? & ? & Hd);
        try done. unfold id in Hd. by rewrite Hcs in Hd.
    + destruct (voice_directional_zero_wheels "moving backward" Motor.move_backward
                  "Moving backward" now duration w Z.opp Z.opp Z.opp Z.opp)
        as (? & ? & Hd); try done. by rewrite Hcn in Hd.
    + destruct (voice_directional_zero_wheels "turning left" Motor.turn_left
                  "Turning left" now duration w Z.opp id Z.opp id) as (? & ? & Hd);
        try done. unfold id in Hd. by rewrite Hcn, Hcs in Hd.
    + destruct (voice_directional_zero_wheels "turning right" Motor.turn_right
                  "Turning right" now duration w id Z.opp id Z.opp) as (? & ? & Hd);
        try done. unfold id in Hd. by rewrite Hcn, Hcs in Hd.
    + destruct (voice_directional_zero_wheels "strafing left" Motor.strafe_left
                  "Moving left sideways" now duration w Z.opp id id Z.opp)
        as (? & ? & Hd); try done. unfold id in Hd. by rewrite Hcn, Hcs in Hd.
    + destruct (voice_directional_zero_wheels "strafing right" Motor.strafe_right
                  "Moving right sideways" now duration w id Z.opp Z.opp id)
        as (? & ? & Hd); try done. unfold id in Hd. by rewrite Hcn, Hcs in Hd.
    + by apply voice_spin_around_zero_wheels.
  - unfold voice_move_forward, voice_move_backward, voice_turn_left, voice_turn_right,
      voice_strafe_left, voice_strafe_right, voice_directional, voice_spin_around, truthy.
    destruct duration as [d|]; [case (d =? 0)|]; repeat split; vm_compute; reflexivity.
Qed.

Lemma C10_zero_speed_is_no_speed_witness :
  let w := final (set_speed_limit 35 init_world) in
  safety_lock (self w) = false /\ emergency_stop_active (self w) = false /\
  current_speed (self w) = 35 /\
  wheels (final (voice_strafe_left 1000 (Some 0) None w))
    = [Some (-35); Some 35; Some 35; Some (-35)] /\
  wheels (final (voice_spin_around 1000 (Some 0) None w))
    = [Some 25; Some (-25); Some 25; Some (-25)].
Proof.
  intros w.
  assert (safety_lock (self w) = false) as Hl by reflexivity.
  assert (emergency_stop_active (self w) = false) as He by reflexivity.
  assert (0 <= current_speed (self w) <= max_safe_speed (self w)) as Hs
    by (vm_compute; split; discriminate).
  assert (max_safe_speed (self w) <= 100) as Hmax by (vm_compute; discriminate).
  assert (has_wheels (base (self w))) as Hw by exact init_has_wheels.
  destruct (proj1 (proj2 (C10_zero_speed_is_no_speed 1000 None w)) Hl He Hs Hmax Hw)
    as (_ & _ & _ & _ & (_ & _ & Hsl) & _ & (_ & _ & Hsp)).
  split; [exact Hl|]. split; [exact He|]. split; [reflexivity|].
  split; [exact Hsl|exact Hsp].
Defined.

(** *** Admission and the emergency stop *)

Section Emergency.

Implicit Types (w : World).

Lemma _start_movement_held now a w :
  safety_lock (self w) = true -> _start_movement now a w = Blocked w.
Proof. intros Hl. unfold _start_movement, with_safety_lock. by rewrite Hl. Qed.

(** While the flag is set and the lock is free, a movement is refused and
    nothing changes. *)
Lemma _start_movement_rejected now a w :
  safety_lock (self w) = false -> emergency_stop_active (self w) = true ->
  _start_movement now a w = Returned false w.
Proof.
  intros Hl He. unfold _start_movement, with_safety_lock. rewrite Hl.
  unfold bind, upd, modify, gets, ret; simpl. rewrite He.
  destruct w as [[] ?]; simpl in *; by subst.
Qed.

Lemma _start_movement_admitted now a w :
  safety_lock (self w) = false -> emergency_stop_active (self w) = false ->
  _start_movement now a w =
  Returned true
    (mkWorld (set_movement true a (Some now) (total_movements (self w) + 1) (self w))
             (threads w ++ [movement_timeout_check (now + 1000 * movement_timeout (self w))])).
Proof.
  intros Hl He. unfold _start_movement, with_safety_lock. rewrite Hl.
  unfold bind, upd, modify, gets, ret, spawn; simpl. rewrite He. simpl.
  destruct w as [[] ?]; simpl in *; by subst.
Qed.

(** [emergency_stop] takes the lock and then calls [_end_movement], which
    takes it again: the call never returns, whatever the state. *)
Lemma emergency_stop_blocks now w : returned (emergency_stop now w) = false.
Proof.
  unfold emergency_stop, with_safety_lock.
  destruct (safety_lock (self w)); [done|].
  cbv [bind upd modify super_stop_all].
  by rewrite _end_movement_held.
Qed.

(** Where it stops: the flag is set and the wheels are stopped, but the
    movement is not ended, no thread is started to clear the flag, and the
    lock stays held. *)
Lemma emergency_stop_free now w :
  safety_lock (self w) = false ->
  emergency_stop now w =
  Blocked (mkWorld
             (set_base (Motor.stop_all (base (self w)))
                (set_emergency_stop_active true (set_safety_lock true (self w))))
             (threads w)).
Proof.
  intros Hl. unfold emergency_stop, with_safety_lock. rewrite Hl.
  cbv [bind upd modify super_stop_all].
  by rewrite _end_movement_held.
Qed.

End Emergency.

(** C2, at the failing input: a forward movement is started on a new
    controller and [emergency_stop] is called five seconds later.  The
    call does not return; the wheels are stopped and the flag is set, but
    [is_moving] is still true, only the watchdog is pending (no thread will
    clear the flag), the lock is held, and a later [_start_movement] does
    not return either. *)
Theorem C2_emergency_stop_deadlock :
  let w := final (voice_move_forward 0 None None init_world) in
  let o := emergency_stop 5000 w in
  is_moving (self w) = true /\
  returned o = false /\
  is_moving (self (final o)) = true /\
  wheels (final o) = [Some 0; Some 0; Some 0; Some 0] /\
  emergency_stop_active (self (final o)) = true /\
  safety_lock (self (final o)) = true /\
  threads (final o) = [movement_timeout_check 10000] /\
  returned (_start_movement 6000 "moving forward" (final o)) = false.
Proof. vm_compute. repeat split; reflexivity. Qed.

(** *** Watchdogs along a run *)

Section Watchdogs.

Implicit Types (w : World) (t : Thread).

Lemma watchdogs_spawn c ths t :
  watchdogs (mkWorld c (ths ++ [t])) =
  (watchdogs (mkWorld c ths) ++ if is_watchdog t then [t] else [])%list.
Proof.
  unfold watchdogs; simpl. rewrite filter_app. f_equal.
  by destruct t.
Qed.

Lemma watchdogs_delete c ths i t :
  ths !! i = Some t -> is_watchdog t = false ->
  watchdogs (mkWorld c (delete i ths)) = watchdogs (mkWorld c ths).
Proof.
  unfold watchdogs; simpl. revert i.
  induction ths as [|t' ths IH]; intros [|i] Hi Ht; simpl in *; try done.
  - injection Hi as ->. rewrite filter_cons. by rewrite Ht.
  - rewrite !filter_cons. by rewrite (IH i Hi Ht).
Qed.

Lemma watched_voice_directional a gait phrase now speed duration w :
  watched w -> watched (final (voice_directional a gait phrase now speed duration w)).
Proof.
  unfold watched. flags w; destruct duration as [d|]; cbn; try done.
  all: try (destruct (d =? 0); cbn); intros _ _ _;
    unfold watchdogs; cbn; rewrite ?filter_app, ?filter_cons; cbn;
    by destruct (filter _ _).
Qed.

Lemma watched_voice_spin_around now speed duration w :
  watched w -> watched (final (voice_spin_around now speed duration w)).
Proof. unfold watched. flags w; cbn; try done; intros _ _ _; spawned. Qed.

Lemma watched_voice_dance_mode now w :
  watched w -> watched (final (voice_dance_mode now w)).
Proof. unfold watched. flags w; cbn; try done; intros _ _ _; spawned. Qed.

Lemma watched_voice_come_here now duration w :
  watched w -> watched (final (voice_come_here now duration w)).
Proof. unfold watched. flags w; cbn; try done; intros _ _ _; spawned. Qed.

Lemma watched_stop_all_safe now w :
  watched w -> watched (final (stop_all_safe now w)).
Proof. unfold watched. flags w; cbn; done. Qed.

Lemma watched_emergency_stop now w :
  watched w -> watched (final (emergency_stop now w)).
Proof. unfold watched. flags w; cbn; done. Qed.

Lemma watched_set_speed_limit speed w :
  watched w -> watched (final (set_speed_limit speed w)).
Proof. unfold watched. flags w; cbn; done. Qed.

Lemma watched_set_movement_preferences pref_speed pref_timeout w :
  watched w -> watched (final (set_movement_preferences pref_speed pref_timeout w)).
Proof.
  unfold watched. destruct pref_speed, pref_timeout; flags w; cbn; done.
Qed.

Lemma watched_run_thread now i w o :
  watched w -> run_thread now i w = Some o -> watched (final o).
Proof.
  unfold run_thread. intros Hw.
  destruct (threads w !! i) as [t|] eqn:Hi; [|done].
  destruct (wake_time t <=? now); [|done]. intros [= <-].
  unfold watched in *.
  destruct t as [wk|wk|wk|moves wk].
  - clear Hw Hi. flags w; cbn; done.
  - pose proof (watchdogs_delete (self w) (threads w) i _ Hi eq_refl) as Hd.
    revert Hw Hd. flags w; cbn; try done. all: by intros ? ->.
  - clear Hw Hi. flags w; cbn; done.
  - pose proof (watchdogs_delete (self w) (threads w) i _ Hi eq_refl) as Hd.
    revert Hw Hd. destruct moves as [|m moves]; flags w; cbn; try done.
    all: intros Hw Hd _ _; rewrite filter_app, Hd, filter_cons; cbn;
      rewrite app_nil_r; by apply Hw.
Qed.

Lemma watched_exec now e w w' :
  watched w -> exec now e w = Some w' -> watched w'.
Proof.
  intros Hw.
  destruct e as [s d|s d|s d|s d|s d|s d|s d| |d| | |s|s t|i]; simpl;
    try (intros [= <-]).
  1-6: by apply watched_voice_directional.
  - by apply watched_voice_spin_around.
  - by apply watched_voice_dance_mode.
  - by apply watched_voice_come_here.
  - by apply watched_stop_all_safe.
  - by apply watched_emergency_stop.
  - by apply watched_set_speed_limit.
  - by apply watched_set_movement_preferences.
  - destruct (run_thread now i w) as [o|] eqn:Ho; simpl; [|done].
    intros [= <-]. by eapply watched_run_thread.
Qed.

Lemma watched_run trace : forall last w w',
  watched w -> run last trace w = Some w' -> watched w'.
Proof.
  induction trace as [|[now e] trace IH]; intros last w w' Hw; simpl.
  - by intros [= <-].
  - destruct (last <=? now); [|done].
    destruct (exec now e w) as [w1|] eqn:He; [|done].
    apply IH. by eapply watched_exec.
Qed.

Lemma watched_init : watched init_world.
Proof. by unfold watched. Qed.

End Watchdogs.


(** C1, as stated, fails on this run of a new controller: forward at 1 s,
    [stop_all_safe] at 2 s, forward again at 6 s, and at 11 s the watchdog
    of the first movement wakes up.  After the stop no movement is in
    progress but the first watchdog is still pending; during the second
    movement two watchdogs are pending; and the first one ends the second
    movement, which is then 5 s old. *)
Lemma C1_watchdog_not_cancelled :
  let forward := call_voice_move_forward None None in
  exists w1 w2 w3,
    run 0 [(1000, forward); (2000, call_stop_all_safe)] init_world = Some w1 /\
    run 2000 [(6000, forward)] w1 = Some w2 /\
    run 6000 [(11000, resume 0)] w2 = Some w3 /\
    is_moving (self w1) = false /\
    watchdogs w1 = [movement_timeout_check 11000] /\
    is_moving (self w2) = true /\
    watchdogs w2 = [movement_timeout_check 11000; movement_timeout_check 16000] /\
    is_moving (self w3) = false /\
    map duration (movement_history (self w3)) = [1000; 5000] /\
    watchdogs w3 = [movement_timeout_check 16000].
Proof.
  do 3 eexists.
  split; [vm_compute; reflexivity|].
  split; [vm_compute; reflexivity|].
  split; [vm_compute; reflexivity|].
  vm_compute. repeat split; reflexivity.
Qed.

(** C1, amended.  Along every run of a new controller, as long as no
    thread is stuck on the safety lock, a movement in progress has a
    pending watchdog.  Every admitted movement starts exactly one watchdog,
    due [movement_timeout] seconds later.  [_end_movement] and
    [stop_all_safe] cancel nothing: the pending threads are the same after
    them.  A watchdog that wakes up when no movement is in progress does
    nothing. *)
Theorem C1_watchdog_per_movement :
  (forall trace w,
     run 0 trace init_world = Some w ->
     safety_lock (self w) = false -> is_moving (self w) = true ->
     watchdogs w <> []) /\
  (forall now a w w',
     _start_movement now a w = Returned true w' ->
     watchdogs w' =
     (watchdogs w ++ [movement_timeout_check (now + 1000 * movement_timeout (self w))])%list) /\
  (forall now w,
     threads (final (_end_movement now w)) = threads w /\
     threads (final (stop_all_safe now w)) = threads w) /\
  (forall now w,
     is_moving (self w) = false -> _movement_timeout_check now w = Returned tt w).
Proof.
  split; [|split; [|split]].
  - intros trace w Hrun. exact (watched_run trace 0 init_world w watched_init Hrun).
  - intros now a w w'.
    destruct (safety_lock (self w)) eqn:Hl.
    { by rewrite _start_movement_held. }
    destruct (emergency_stop_active (self w)) eqn:He.
    { by rewrite _start_movement_rejected. }
    rewrite _start_movement_admitted by done. intros [= <-].
    rewrite watchdogs_spawn. by destruct w.
  - intros now w. destruct (safety_lock (self w)) eqn:Hl.
    + by rewrite _end_movement_held, stop_all_safe_held.
    + by rewrite _end_movement_free, stop_all_safe_free.
  - intros now w Hm. unfold _movement_timeout_check, bind, gets. by rewrite Hm.
Qed.

Lemma C1_watchdog_per_movement_witness :
  let w := final (voice_move_forward 0 None None init_world) in
  run 0 [(0, call_voice_move_forward None None)] init_world = Some w /\
  safety_lock (self w) = false /\ is_moving (self w) = true /\
  watchdogs w <> [].
Proof.
  intros w.
  assert (run 0 [(0, call_voice_move_forward None None)] init_world = Some w)
    as Hrun by (vm_compute; reflexivity).
  assert (safety_lock (self w) = false) as Hl by (vm_compute; reflexivity).
  assert (is_moving (self w) = true) as Hm by (vm_compute; reflexivity).
  repeat split; try assumption.
  exact (proj1 C1_watchdog_per_movement _ w Hrun Hl Hm).
Defined.

(** ** The command processor *)

Import Commands.


Lemma no_match_in_empty_text command_type : _match_command "" command_type = false.
Proof.
  unfold _match_command.
  assert (forall table, Forall (fun e => Forall (fun pat => found pat "" = false) (snd e)) table ->
                        existsb (fun pat => found pat "") (patterns_of table command_type) = false)
    as Htable.
  { induction 1 as [|[k ps] table Hps _ IH]; simpl; [done|].
    destruct (String.eqb k command_type); [|done].
    simpl in Hps. induction Hps as [|pat ps Hpat _ IHps]; simpl; [done|].
    by rewrite Hpat. }
  apply Htable. repeat constructor.
Qed.

(** C6.  Whatever the motor controller, an utterance whose normalized
    text matches an emergency-stop pattern is answered by the controller's
    [emergency_stop] alone, with command type ["emergency_stop"], whatever
    else it matches; one that does not, but matches a stop pattern, is
    answered by [stop_all_safe] alone, with command type ["stop"]; only an
    utterance that matches neither reaches the loop over the movement
    patterns. *)
Theorem C6_stop_priority {W : Type} `{MotorControllerAPI W}
    (now : Z) (pick : nat) (voice_text : string) (p : MovementCommandProcessor W) :
  let text := strip (lower voice_text) in
  let p1 := final (record_command now text p) in
  (_match_command text "emergency_stop" = true ->
   process_voice_command now pick voice_text p =
   match api_emergency_stop now (Commands.motor_controller p1) with
   | Returned response w =>
       Returned (mkResult true response (Some "emergency_stop") None None)
                (mkProcessor w (mark_last "emergency_stop" (command_history p1)) now)
   | Blocked w => Blocked (mkProcessor w (command_history p1) (last_command_time p1))
   end) /\
  (_match_command text "emergency_stop" = false ->
   _match_command text "stop" = true ->
   process_voice_command now pick voice_text p =
   match api_stop_all_safe now (Commands.motor_controller p1) with
   | Returned _ w =>
       Returned (mkResult true "Stopping all movement" (Some "stop") None None)
                (mkProcessor w (mark_last "stop" (command_history p1)) now)
   | Blocked w => Blocked (mkProcessor w (command_history p1) (last_command_time p1))
   end) /\
  (_match_command text "emergency_stop" = false ->
   _match_command text "stop" = false ->
   voice_text <> "" ->
   process_voice_command now pick voice_text p =
   movement_loop now pick command_patterns text
     (_extract_speed text) (_extract_duration text) p1).
Proof.
  intros text p1. subst text p1.
  destruct voice_text as [|c s].
  { change (strip (lower "")) with "". rewrite !no_match_in_empty_text.
    by repeat split. }
  set (text := strip (lower (String c s))).
  unfold process_voice_command. fold text.
  split; [|split].
  - intros ->. unfold bind, record_command, modify, on_controller, _record_success, ret.
    cbn [final]. by destruct (api_emergency_stop now _).
  - intros -> ->. unfold bind, record_command, modify, on_controller, _record_success, ret.
    cbn [final]. by destruct (api_stop_all_safe now _).
  - by intros -> -> _.
Qed.

Lemma C6_stop_priority_witness :
  let said := "Turn left, no, STOP NOW" in
  let text := "turn left, no, stop now" in
  _match_command text "turn_left" = true /\
  _match_command text "emergency_stop" = true /\
  process_voice_command 7 0 said (new_processor mock) =
  Returned (mkResult true "Emergency stop activated!" (Some "emergency_stop") None None)
           (mkProcessor mock [mkRecord text 7 true (Some "emergency_stop") (Some true)] 7).
Proof.
  intros said text.
  assert (_match_command (strip (lower said)) "emergency_stop" = true) as Hem
    by (vm_compute; reflexivity).
  split; [vm_compute; reflexivity|]. split; [exact Hem|].
  exact (proj1 (C6_stop_priority 7 0 said (new_processor mock)) Hem).
Defined.

(** On the robot's own controller the emergency phrase is dispatched to
    [emergency_stop] as well, and that call does not return. *)
Example emergency_phrase_on_the_robot :
  returned (process_voice_command 7 0 "emergency stop" (new_processor init_world)) = false.
Proof. vm_compute; reflexivity. Qed.

(** C7.  On a new controller, ["turn left quickly"] is a turn-left
    command with speed 65 and no duration, and processing it drives the
    wheels at FL = -65, FR = 65, BL = -65, BR = 65. *)
Theorem C7_turn_left_quickly (now : Z) (pick : nat) :
  _extract_speed "turn left quickly" = Some 65 /\
  exists r p,
    process_voice_command now pick "turn left quickly" (new_processor init_world)
      = Returned r p /\
    success r = true /\
    command_type r = Some "turn_left" /\
    Commands.speed r = Some 65 /\
    Commands.duration r = None /\
    wheels (Commands.motor_controller p) = [Some (-65); Some 65; Some (-65); Some 65] /\
    is_moving (self (Commands.motor_controller p)) = true /\
    current_action (self (Commands.motor_controller p)) = "turning left" /\
    current_speed (self (Commands.motor_controller p)) = 65.
Proof.
  split; [vm_compute; reflexivity|].
  do 2 eexists. split; [vm_compute; reflexivity|].
  vm_compute. repeat split; reflexivity.
Qed.

Example turn_left_wheels :
  map (duty_Z (Motor.turn_left 65 Motor.init)) ["FL"; "FR"; "BL"; "BR"]
  = [Some (-65); Some 65; Some (-65); Some 65].
Proof. vm_compute; reflexivity. Qed.

(** ** The MOVING state of the brain *)

Import Brain.


(** C3, as stated, fails for the utterance ["stop"] heard while
    listening: it is a movement command, so the brain enters MOVING, yet
    no movement was admitted (none was even requested: [total_movements]
    is still 0) and [is_moving] is false. *)
Lemma C3_moving_without_admission :
  let b := set_state LISTENING init_brain in
  exists b',
    _process_speech_with_movement 7 0 "stop" b = Some (Returned tt b') /\
    state b' = MOVING /\
    is_moving (self (Brain.motor_controller b')) = false /\
    total_movements (self (Brain.motor_controller b')) = 0.
Proof. eexists. split; [vm_compute; reflexivity|]. vm_compute. by repeat split. Qed.

Section Moving.

Implicit Types (b : EnhancedElleeBrainWithMovement).

Lemma _speak_while_moving text b :
  state b = MOVING ->
  _speak text b =
  Returned tt (set_pending (pending b ++ [speak_and_return text])%list b).
Proof.
  intros Hs. unfold _speak, bind, gets, start_thread, modify, ret; simpl.
  by rewrite Hs.
Qed.

Lemma _speak_and_return_while_moving b :
  state b = MOVING -> _speak_and_return b = Returned tt b.
Proof.
  intros Hs. unfold _speak_and_return, bind, gets, ret; simpl. by rewrite Hs.
Qed.

End Moving.

(** C3, amended.  [_process_movement_command] puts the brain in MOVING
    before the command is processed and whatever the admission check says:
    if the processor reports success the brain is in MOVING afterwards, if
    it reports failure the brain is back in LISTENING, and if the call
    blocks the brain stays in MOVING.  In MOVING, with movement enabled,
    [_handle_movement_state] leaves the state exactly when [is_moving] is
    false, for LISTENING if a person is detected and for IDLE otherwise;
    [_speak] and the end of its thread do not leave MOVING. *)
Theorem C3_moving_state (now : Z) (pick : nat) (speech_text : string)
    (b : EnhancedElleeBrainWithMovement) :
  (match process_voice_command now pick speech_text (movement_processor b) with
   | Returned result _ =>
       returned (_process_movement_command now pick speech_text b) = true /\
       state (final (_process_movement_command now pick speech_text b))
       = if success result then MOVING else LISTENING
   | Blocked _ =>
       returned (_process_movement_command now pick speech_text b) = false /\
       state (final (_process_movement_command now pick speech_text b)) = MOVING
   end) /\
  (state b = MOVING -> movement_enabled b = true ->
   state (final (_handle_movement_state now b))
   = if is_moving (self (Brain.motor_controller b)) then MOVING
     else if person_detected b then LISTENING else IDLE) /\
  (state b = MOVING ->
   forall text,
     state (final (_speak text b)) = MOVING /\
     state (final (_speak_and_return b)) = MOVING).
Proof.
  split; [|split].
  - unfold _process_movement_command, bind, _transition_to_moving, add_message,
      modify, on_processor.
    cbn [movement_processor set_state set_messages].
    destruct (process_voice_command now pick speech_text (movement_processor b))
      as [result p'|p']; [|done].
    destruct (success result).
    + by rewrite _speak_while_moving.
    + by rewrite _speak_while_moving.
  - intros Hs He. unfold _handle_movement_state, bind, gets; simpl. rewrite He.
    destruct (is_moving (self (Brain.motor_controller b))) eqn:Hm; simpl.
    + destruct (_ <? _); [|done].
      unfold on_processor, on_controller.
      by destruct (stop_all_safe now _).
    + by destruct (person_detected b).
  - intros Hs text. split.
    + by rewrite _speak_while_moving.
    + by rewrite _speak_and_return_while_moving.
Qed.

Lemma C3_moving_state_witness :
  let b := final (_process_movement_command 7 0 "move forward"
                    (set_state LISTENING init_brain)) in
  state b = MOVING /\ movement_enabled b = true /\
  state (final (_handle_movement_state 8 b)) = MOVING.
Proof.
  intros b.
  assert (state b = MOVING) as Hs by (vm_compute; reflexivity).
  assert (movement_enabled b = true) as He by (vm_compute; reflexivity).
  split; [exact Hs|]. split; [exact He|].
  exact (proj1 (proj2 (C3_moving_state 8 0 "" b)) Hs He).
Defined.

(** Outside the movement code, the thread that fetches an answer from the
    conversation service ends with [_transition_to_listening] without
    looking at the state.  Here a question is asked at 1 s, the main loop
    gives up THINKING at 7 s, ["move forward"] is heard at 8 s, and the
    answer thread ends after that: the brain is in LISTENING while
    [is_moving] is still true. *)
Example answer_thread_leaves_moving :
  let b0 := set_presence true true (set_state LISTENING init_brain) in
  let b1 := final (_process_regular_conversation_enhanced 1000 "what is a resistor" b0) in
  exists o2 b3 o4,
    state b1 = THINKING /\
    main_loop_step 7000 b1 = Some o2 /\ state (final o2) = LISTENING /\
    _process_speech_with_movement 8000 0 "move forward" (final o2)
      = Some (Returned tt b3) /\
    state b3 = MOVING /\ is_moving (self (Brain.motor_controller b3)) = true /\
    run_brain_thread 0 (inr "That's a great topic!") b3 = Some o4 /\
    state (final o4) = LISTENING /\
    is_moving (self (Brain.motor_controller (final o4))) = true.
Proof.
  do 3 eexists.
  split; [vm_compute; reflexivity|].
  split; [vm_compute; reflexivity|].
  split; [vm_compute; reflexivity|].
  split; [vm_compute; reflexivity|].
  split; [vm_compute; reflexivity|].
  split; [vm_compute; reflexivity|].
  split; [vm_compute; reflexivity|].
  split; vm_compute; reflexivity.
Qed.

(** * Further properties *)

(** ** The wheel driver *)

Section Gaits.

Implicit Types (c : SOMEBODY4MotorController Z) (m : Motor Z).

Lemma base_eq c1 c2 :
  motors c1 = motors c2 -> pwm_running c1 = pwm_running c2 ->
  pwm_frequency c1 = pwm_frequency c2 -> c1 = c2.
Proof. destruct c1, c2; simpl; by intros -> -> ->. Qed.

Lemma set_motor_speed_twice n v v' c :
  set_motor_speed n v (set_motor_speed n v' c) = set_motor_speed n v c.
Proof.
  apply base_eq.
  - rewrite !set_motor_speed_motors, alter_alter_eq.
    apply alter_ext. by intros.
  - destruct (set_motor_speed_pwm n v (set_motor_speed n v' c)) as [-> _].
    destruct (set_motor_speed_pwm n v' c) as [-> _].
    by destruct (set_motor_speed_pwm n v c) as [-> _].
  - destruct (set_motor_speed_pwm n v (set_motor_speed n v' c)) as [_ ->].
    destruct (set_motor_speed_pwm n v' c) as [_ ->].
    by destruct (set_motor_speed_pwm n v c) as [_ ->].
Qed.

Lemma set_motor_speed_comm n n' v v' c :
  n <> n' ->
  set_motor_speed n v (set_motor_speed n' v' c)
  = set_motor_speed n' v' (set_motor_speed n v c).
Proof.
  intros Hn. apply base_eq.
  - rewrite !set_motor_speed_motors. by apply alter_alter_ne.
  - destruct (set_motor_speed_pwm n v (set_motor_speed n' v' c)) as [-> _].
    destruct (set_motor_speed_pwm n' v' c) as [-> _].
    destruct (set_motor_speed_pwm n' v' (set_motor_speed n v c)) as [-> _].
    by destruct (set_motor_speed_pwm n v c) as [-> _].
  - destruct (set_motor_speed_pwm n v (set_motor_speed n' v' c)) as [_ ->].
    destruct (set_motor_speed_pwm n' v' c) as [_ ->].
    destruct (set_motor_speed_pwm n' v' (set_motor_speed n v c)) as [_ ->].
    by destruct (set_motor_speed_pwm n v c) as [_ ->].
Qed.

(** A second gait overwrites the first. *)
Lemma set4_overwrite fl fr bl br fl' fr' bl' br' c :
  set4 fl fr bl br (set4 fl' fr' bl' br' c) = set4 fl fr bl br c.
Proof.
  unfold set4.
  rewrite (set_motor_speed_comm "FL" "BR") by done.
  rewrite (set_motor_speed_comm "FL" "BL") by done.
  rewrite (set_motor_speed_comm "FL" "FR") by done.
  rewrite set_motor_speed_twice.
  rewrite (set_motor_speed_comm "FR" "BR" fr br') by done.
  rewrite (set_motor_speed_comm "FR" "BL" fr bl') by done.
  rewrite set_motor_speed_twice.
  rewrite (set_motor_speed_comm "BL" "BR" bl br') by done.
  rewrite set_motor_speed_twice.
  by rewrite set_motor_speed_twice.
Qed.

(** Every gait sets the four wheels at once. *)
Lemma gait_set4 g :
  g ∈ gaits ->
  exists fl fr bl br : Z -> Z, forall s c, g s c = set4 (fl s) (fr s) (bl s) (br s) c.
Proof.
  unfold gaits. rewrite !elem_of_cons, elem_of_nil.
  intros [->|[->|[->|[->|[->|[->|[->|[->|[->|[]]]]]]]]]].
  - by exists id, id, id, id.
  - by exists Z.opp, Z.opp, Z.opp, Z.opp.
  - by exists Z.opp, id, Z.opp, id.
  - by exists id, Z.opp, id, Z.opp.
  - by exists Z.opp, id, id, Z.opp.
  - by exists id, Z.opp, Z.opp, id.
  - by exists (fun _ => 0), id, id, (fun _ => 0).
  - by exists id, (fun _ => 0), (fun _ => 0), id.
  - by exists id, Z.opp, id, Z.opp.
Qed.

Lemma set4_stop_all fl fr bl br c :
  Motor.stop_all (set4 fl fr bl br c) = Motor.stop_all c.
Proof.
  rewrite !stop_all_eq. unfold set4. apply base_eq; simpl.
  - rewrite !set_motor_speed_motors. apply map_eq; intros k.
    rewrite !lookup_fmap.
    assert (forall f n (ms : gmap string (Motor Z)),
              (forall m, zero (f m) = zero m) ->
              zero <$> alter f n ms !! k = zero <$> ms !! k) as Halter.
    { intros f n ms Hf. rewrite lookup_alter. case_decide; [subst|done].
      destruct (ms !! k); simpl; by rewrite ?Hf. }
    by rewrite !Halter.
  - by repeat match goal with
       | |- context [set_motor_speed ?n ?v ?x] =>
           destruct (set_motor_speed_pwm n v x) as [-> _]
       end.
  - by repeat match goal with
       | |- context [set_motor_speed ?n ?v ?x] =>
           destruct (set_motor_speed_pwm n v x) as [_ ->]
       end.
Qed.

End Gaits.

(** X1.  [stop_all] gives every wheel the duties 0 and 0, keeps its two
    pins, adds and removes no wheel, leaves the PWM settings alone, and
    doing it twice is doing it once. *)
Theorem X1_stop_all (c : SOMEBODY4MotorController Z) :
  (forall name,
     motors (Motor.stop_all c) !! name
     = (fun m => mkMotor (RPWM m) (LPWM m) 0 0) <$> motors c !! name) /\
  pwm_running (Motor.stop_all c) = pwm_running c /\
  pwm_frequency (Motor.stop_all c) = pwm_frequency c /\
  Motor.stop_all (Motor.stop_all c) = Motor.stop_all c.
Proof.
  split; [|split; [|split]].
  - intros name. rewrite stop_all_eq; simpl. by rewrite lookup_fmap.
  - by rewrite stop_all_eq.
  - by rewrite stop_all_eq.
  - apply stop_all_idem.
Qed.

(** X2.  The last gait wins: whatever gait was set before, at whatever
    speed, setting a gait leaves the controller as if only that one had
    been set. *)
Theorem X2_last_gait_wins g1 g2 (s1 s2 : Z) (c : SOMEBODY4MotorController Z) :
  g1 ∈ gaits -> g2 ∈ gaits -> g2 s2 (g1 s1 c) = g2 s2 c.
Proof.
  intros (fl1 & fr1 & bl1 & br1 & H1)%gait_set4 (fl2 & fr2 & bl2 & br2 & H2)%gait_set4.
  rewrite !H2, H1. apply set4_overwrite.
Qed.

Lemma X2_last_gait_wins_witness :
  Motor.strafe_left 30 (Motor.move_forward 80 Motor.init)
  = Motor.strafe_left 30 Motor.init.
Proof.
  apply (X2_last_gait_wins Motor.move_forward Motor.strafe_left 80 30 Motor.init);
    unfold gaits; rewrite !elem_of_cons; tauto.
Defined.

Lemma clamp100_0 : clamp100 0 = 0.
Proof. reflexivity. Qed.

(** X3.  On a controller that has the four wheels, each gait drives them
    at the speed clamped to -100..100, with these signs for FL, FR, BL, BR:
    forward + + + +, backward - - - -, turn left - + - +, turn right and
    spin clockwise + - + -, strafe left - + + -, strafe right + - - +,
    diagonal forward-left 0 + + 0, diagonal forward-right + 0 0 +. *)
Theorem X3_gait_table (s : Z) (c : SOMEBODY4MotorController Z) :
  has_wheels c ->
  duties (Motor.move_forward s c)
  = [Some (clamp100 s); Some (clamp100 s); Some (clamp100 s); Some (clamp100 s)] /\
  duties (Motor.move_backward s c)
  = [Some (- clamp100 s); Some (- clamp100 s); Some (- clamp100 s); Some (- clamp100 s)] /\
  duties (Motor.turn_left s c)
  = [Some (- clamp100 s); Some (clamp100 s); Some (- clamp100 s); Some (clamp100 s)] /\
  duties (Motor.turn_right s c)
  = [Some (clamp100 s); Some (- clamp100 s); Some (clamp100 s); Some (- clamp100 s)] /\
  duties (Motor.strafe_left s c)
  = [Some (- clamp100 s); Some (clamp100 s); Some (clamp100 s); Some (- clamp100 s)] /\
  duties (Motor.strafe_right s c)
  = [Some (clamp100 s); Some (- clamp100 s); Some (- clamp100 s); Some (clamp100 s)] /\
  duties (Motor.diagonal_forward_left s c)
  = [Some 0; Some (clamp100 s); Some (clamp100 s); Some 0] /\
  duties (Motor.diagonal_forward_right s c)
  = [Some (clamp100 s); Some 0; Some 0; Some (clamp100 s)] /\
  duties (Motor.spin_clockwise s c)
  = [Some (clamp100 s); Some (- clamp100 s); Some (clamp100 s); Some (- clamp100 s)].
Proof.
  intros Hw.
  assert (forall fl fr bl br,
            duties (set4 fl fr bl br c)
            = [Some (clamp100 fl); Some (clamp100 fr);
               Some (clamp100 bl); Some (clamp100 br)]) as Hd
    by (intros; by apply set4_duties).
  repeat apply conj.
  - unfold Motor.move_forward. apply Hd.
  - unfold Motor.move_backward. rewrite Hd. unfold num_neg, PyNum_Z.
    by rewrite !clamp100_opp.
  - unfold Motor.turn_left. rewrite Hd. unfold num_neg, PyNum_Z.
    by rewrite !clamp100_opp.
  - unfold Motor.turn_right. rewrite Hd. unfold num_neg, PyNum_Z.
    by rewrite !clamp100_opp.
  - unfold Motor.strafe_left. rewrite Hd. unfold num_neg, PyNum_Z.
    by rewrite !clamp100_opp.
  - unfold Motor.strafe_right. rewrite Hd. unfold num_neg, PyNum_Z.
    by rewrite !clamp100_opp.
  - unfold Motor.diagonal_forward_left. rewrite Hd. unfold num_of_Z, PyNum_Z.
    by rewrite !clamp100_0.
  - unfold Motor.diagonal_forward_right. rewrite Hd. unfold num_of_Z, PyNum_Z.
    by rewrite !clamp100_0.
  - unfold Motor.spin_clockwise. rewrite Hd. unfold num_neg, PyNum_Z.
    by rewrite !clamp100_opp.
Qed.

Lemma X3_gait_table_witness :
  duties (Motor.strafe_left 250 Motor.init)
  = [Some (-100); Some 100; Some 100; Some (-100)].
Proof.
  exact (proj1 (proj2 (proj2 (proj2 (proj2
           (X3_gait_table 250 Motor.init init_has_wheels)))))).
Defined.

(** X4.  [dance_demo] and [cleanup] leave every wheel stopped: after the
    demo the controller is what [stop_all] alone would have made it, and
    after [cleanup] it is that with [pwm_running] false. *)
Theorem X4_demo_and_cleanup_stop (c : SOMEBODY4MotorController Z) :
  Motor.dance_demo c = Motor.stop_all c /\
  Motor.cleanup c = mkBase (motors (Motor.stop_all c)) false (pwm_frequency c) /\
  (forall name m,
     motors (Motor.dance_demo c) !! name = Some m -> speed_f m = 0 /\ speed_r m = 0) /\
  (forall name m,
     motors (Motor.cleanup c) !! name = Some m -> speed_f m = 0 /\ speed_r m = 0).
Proof.
  assert (Motor.dance_demo c = Motor.stop_all c) as Hdemo.
  { unfold Motor.dance_demo, Motor.dance_demo_moves; simpl.
    unfold Motor.move_forward, Motor.move_backward, Motor.turn_left,
      Motor.strafe_left, Motor.strafe_right, Motor.diagonal_forward_left,
      Motor.spin_clockwise.
    rewrite !set4_overwrite. apply set4_stop_all. }
  split; [exact Hdemo|]. split; [|split].
  - unfold Motor.cleanup. by rewrite !stop_all_eq.
  - intros name m. rewrite Hdemo. apply stop_all_zero.
  - intros name m. unfold Motor.cleanup. apply stop_all_zero.
Qed.

(** ** The safety supervisor *)

Section Runs.

Implicit Types (w : World).

(** What every call and every resumed thread keeps holds along a run. *)
Lemma run_invariant (P : World -> Prop) :
  (forall now e w w', P w -> exec now e w = Some w' -> P w') ->
  forall trace last w w', P w -> run last trace w = Some w' -> P w'.
Proof.
  intros Hexec.
  induction trace as [|[now e] trace IH]; intros last w w' Hw; simpl.
  - by intros [= <-].
  - destruct (last <=? now); [|done].
    destruct (exec now e w) as [w1|] eqn:He; [|done].
    apply IH. by eapply Hexec.
Qed.

Lemma last50_length {A} (h : list A) :
  (length (if (50 <? length h)%nat then last50 h else h) <= 50)%nat.
Proof.
  destruct (Nat.ltb_spec 50 (length h)); [|lia].
  unfold last50. rewrite length_drop. lia.
Qed.

(** Proves that a call keeps [bounded]. *)
Ltac bounded w :=
  unfold bounded; intros [Hh Ht]; flags w; simpl in Hh, Ht;
  cbn -[py_max py_min Z.add Z.mul Z.sub Nat.ltb last50 length app];
  rewrite ?py_max_Z, ?py_min_Z;
  try (split; [first [assumption | apply last50_length] | lia]).

Lemma bounded_voice_directional a gait phrase now speed duration w :
  bounded w -> bounded (final (voice_directional a gait phrase now speed duration w)).
Proof.
  destruct duration as [d|]; [unfold voice_directional, truthy; destruct (d =? 0)|];
    bounded w.
Qed.

Lemma bounded_run_thread now i w o :
  bounded w -> run_thread now i w = Some o -> bounded (final o).
Proof.
  unfold run_thread. intros Hw.
  destruct (threads w !! i) as [t|] eqn:Hi; [|done].
  destruct (wake_time t <=? now); [|done]. intros [= <-]. clear Hi.
  revert Hw. destruct t as [wk|wk|wk|[|m moves] wk]; bounded w.
Qed.

Lemma bounded_exec now e w w' : bounded w -> exec now e w = Some w' -> bounded w'.
Proof.
  destruct e as [s d|s d|s d|s d|s d|s d|s d| |d| | |s|s t|i]; simpl;
    try (intros Hw [= <-]; revert Hw).
  1-6: by apply bounded_voice_directional.
  - bounded w.
  - bounded w.
  - bounded w.
  - bounded w.
  - bounded w.
  - bounded w.
  - destruct s, t; bounded w.
  - intros Hw. destruct (run_thread now i w) as [o|] eqn:Ho; simpl; [|done].
    intros [= <-]. by eapply bounded_run_thread.
Qed.

Lemma frozen_refl c : safety_lock c = true -> frozen c c.
Proof. by unfold frozen. Qed.

Lemma frozen_trans c0 c1 c2 : frozen c0 c1 -> frozen c1 c2 -> frozen c0 c2.
Proof. unfold frozen. intuition congruence. Qed.

(** Proves that a call on a held lock leaves the controller [frozen]. *)
Ltac held w :=
  intros Hl; flags w; simpl in Hl; try discriminate Hl;
  cbn -[py_max py_min Z.add Z.mul Z.sub Nat.ltb last50 length app Motor.stop_all];
  unfold frozen; simpl; tauto.

Lemma held_voice_directional a gait phrase now speed duration w :
  safety_lock (self w) = true ->
  voice_directional a gait phrase now speed duration w = Blocked w.
Proof.
  intros Hl. unfold voice_directional, bind. by rewrite _start_movement_held.
Qed.

Lemma held_voice_spin_around now speed duration w :
  safety_lock (self w) = true -> voice_spin_around now speed duration w = Blocked w.
Proof.
  intros Hl. unfold voice_spin_around, bind. by rewrite _start_movement_held.
Qed.

Lemma held_voice_dance_mode now w :
  safety_lock (self w) = true -> voice_dance_mode now w = Blocked w.
Proof.
  intros Hl. unfold voice_dance_mode, bind. by rewrite _start_movement_held.
Qed.

Lemma held_voice_come_here now duration w :
  safety_lock (self w) = true -> voice_come_here now duration w = Blocked w.
Proof.
  intros Hl. unfold voice_come_here, bind. by rewrite _start_movement_held.
Qed.

Lemma held_run_thread now i w o :
  safety_lock (self w) = true -> run_thread now i w = Some o ->
  frozen (self w) (self (final o)).
Proof.
  unfold run_thread. intros Hw.
  destruct (threads w !! i) as [t|] eqn:Hi; [|done].
  destruct (wake_time t <=? now); [|done]. intros [= <-]. clear Hi.
  revert Hw. destruct t as [wk|wk|wk|[|m moves] wk]; held w.
Qed.

Lemma held_exec now e w w' :
  safety_lock (self w) = true -> exec now e w = Some w' -> frozen (self w) (self w').
Proof.
  destruct e as [s d|s d|s d|s d|s d|s d|s d| |d| | |s|s t|i]; simpl;
    try (intros Hw [= <-]; revert Hw).
  1-6: by (intros Hl;
            unfold voice_move_forward, voice_move_backward, voice_turn_left,
              voice_turn_right, voice_strafe_left, voice_strafe_right;
            rewrite held_voice_directional by done; apply frozen_refl).
  - intros Hl. rewrite held_voice_spin_around by done. by apply frozen_refl.
  - intros Hl. rewrite held_voice_dance_mode by done. by apply frozen_refl.
  - intros Hl. rewrite held_voice_come_here by done. by apply frozen_refl.
  - held w.
  - held w.
  - held w.
  - destruct s, t; held w.
  - intros Hw. destruct (run_thread now i w) as [o|] eqn:Ho; simpl; [|done].
    intros [= <-]. by eapply held_run_thread.
Qed.

Lemma held_run c0 trace last w w' :
  frozen c0 (self w) -> run last trace w = Some w' -> frozen c0 (self w').
Proof.
  apply (run_invariant (fun w => frozen c0 (self w))).
  clear. intros now e w w' Hw He.
  eapply frozen_trans; [exact Hw|].
  eapply held_exec; [|exact He]. apply Hw.
Qed.

End Runs.

(** X5.  Along every run that starts with at most 50 movements in the
    history and a watchdog delay between 5 and 30 seconds, as a new
    controller has, the history never holds more than 50 movements and the
    delay stays between 5 and 30 seconds. *)
Theorem X5_history_and_timeout_bounded (trace : list (Z * Call)) (last : Z) (w w' : World) :
  (length (movement_history (self w)) <= 50)%nat ->
  5 <= Control.movement_timeout (self w) <= 30 ->
  run last trace w = Some w' ->
  (length (movement_history (self w')) <= 50)%nat /\
  5 <= Control.movement_timeout (self w') <= 30.
Proof.
  intros Hh Ht. apply (run_invariant bounded); [|by split].
  intros now e w0 w1. apply bounded_exec.
Qed.

Lemma X5_history_and_timeout_bounded_witness :
  exists w',
    run 0 [(1000, call_set_movement_preferences None (Some 120));
           (2000, call_voice_move_forward None None);
           (3000, call_stop_all_safe)] init_world = Some w' /\
    (length (movement_history (self w')) <= 50)%nat /\
    5 <= Control.movement_timeout (self w') <= 30.
Proof.
  eexists. split; [vm_compute; reflexivity|].
  apply (X5_history_and_timeout_bounded
           [(1000, call_set_movement_preferences None (Some 120));
            (2000, call_voice_move_forward None None);
            (3000, call_stop_all_safe)] 0 init_world).
  - simpl. lia.
  - simpl. lia.
  - vm_compute. reflexivity.
Defined.

(** X6.  A held lock is never released: once a thread is stuck on the
    safety lock, along every run the lock stays held, the movement state,
    the emergency flag, the history and the movement counter no longer
    change, every movement command blocks without effect, and so does
    [stop_all_safe] after it has stopped the wheels. *)
Theorem X6_lock_held_for_good (trace : list (Z * Call)) (last : Z) (w w' : World) :
  safety_lock (self w) = true ->
  run last trace w = Some w' ->
  frozen (self w) (self w') /\
  (forall now a, _start_movement now a w' = Blocked w') /\
  (forall a gait phrase now s d, voice_directional a gait phrase now s d w' = Blocked w') /\
  (forall now s d, voice_spin_around now s d w' = Blocked w') /\
  (forall now, voice_dance_mode now w' = Blocked w') /\
  (forall now d, voice_come_here now d w' = Blocked w') /\
  (forall now,
     stop_all_safe now w'
     = Blocked (mkWorld (set_base (Motor.stop_all (base (self w'))) (self w'))
                        (threads w'))).
Proof.
  intros Hl Hrun.
  assert (frozen (self w) (self w')) as Hf
    by (eapply held_run; [by apply frozen_refl|exact Hrun]).
  assert (safety_lock (self w') = true) as Hl' by apply Hf.
  split; [exact Hf|]. repeat split; intros.
  - by apply _start_movement_held.
  - by apply held_voice_directional.
  - by apply held_voice_spin_around.
  - by apply held_voice_dance_mode.
  - by apply held_voice_come_here.
  - by apply stop_all_safe_held.
Qed.

Lemma X6_lock_held_for_good_witness :
  let w := final (emergency_stop 5000
                    (final (voice_move_forward 1000 None None init_world))) in
  let trace := [(6000, call_stop_all_safe); (11000, resume 0);
                (12000, call_voice_turn_left None None)] in
  exists w',
    run 5000 trace w = Some w' /\
    frozen (self w) (self w') /\
    forall now a, _start_movement now a w' = Blocked w'.
Proof.
  intros w trace.
  assert (safety_lock (self w) = true) as Hl by (vm_compute; reflexivity).
  destruct (run 5000 trace w) as [w'|] eqn:Hrun; [|vm_compute in Hrun; discriminate].
  exists w'. split; [reflexivity|].
  split.
  - exact (proj1 (X6_lock_held_for_good trace 5000 w w' Hl Hrun)).
  - exact (proj1 (proj2 (X6_lock_held_for_good trace 5000 w w' Hl Hrun))).
Defined.

(** X7.  An emergency stop does not end a dance.  When [emergency_stop]
    is called during a movement, then along every run that follows the
    flag stays set and [is_moving] stays true, so that a dance thread that
    wakes up with steps left sets the gait of its next step and goes back
    to sleep. *)
Theorem X7_dance_goes_on_after_emergency_stop
    (now t : Z) (trace : list (Z * Call)) (w w' : World) (m : DanceMove)
    (rest : list DanceMove) :
  safety_lock (self w) = false ->
  is_moving (self w) = true ->
  run now trace (final (emergency_stop now w)) = Some w' ->
  emergency_stop_active (self w') = true /\
  is_moving (self w') = true /\
  _enhanced_dance t (m :: rest) w'
  = Returned tt (mkWorld (set_base (move_action m (base (self w'))) (self w'))
                         (threads w' ++ [enhanced_dance rest (t + move_sleep m)])).
Proof.
  intros Hl Hm Hrun.
  rewrite emergency_stop_free in Hrun by done. simpl in Hrun.
  eapply held_run in Hrun; [|by apply frozen_refl].
  destruct Hrun as (_ & Hm' & _ & _ & He' & _). simpl in Hm', He'.
  rewrite Hm in Hm'.
  split; [exact He'|]. split; [exact Hm'|].
  unfold _enhanced_dance, bind, gets. rewrite Hm'. reflexivity.
Qed.

Lemma X7_dance_goes_on_after_emergency_stop_witness :
  let w := final (voice_dance_mode 1000 init_world) in
  let w' := final (emergency_stop 1500 w) in
  let m := mkMove "backward wiggle" (move_backward 40) 1000 in
  emergency_stop_active (self w') = true /\
  is_moving (self w') = true /\
  _enhanced_dance 2000 [m] w'
  = Returned tt (mkWorld (set_base (move_action m (base (self w'))) (self w'))
                         (threads w' ++ [enhanced_dance [] (2000 + move_sleep m)])).
Proof.
  intros w w' m.
  assert (safety_lock (self w) = false) as Hl by (vm_compute; reflexivity).
  assert (is_moving (self w) = true) as Hm by (vm_compute; reflexivity).
  assert (run 1500 [] w' = Some w') as Hrun by reflexivity.
  exact (X7_dance_goes_on_after_emergency_stop 1500 2000 [] w w' m [] Hl Hm Hrun).
Defined.

(** The same on the robot: a dance starts at 1 s and its thread takes the
    first step; [emergency_stop] at 1.5 s stops the wheels; at 2 s the
    dance thread wakes up and drives them backward. *)
Example dance_after_emergency_stop :
  let start := [(1000, call_voice_dance_mode); (1000, resume 1)] in
  let stop := [(1500, call_emergency_stop)] in
  wheels <$> run 0 start init_world
  = Some [Some 40; Some 40; Some 40; Some 40] /\
  wheels <$> run 0 (start ++ stop) init_world
  = Some [Some 0; Some 0; Some 0; Some 0] /\
  emergency_stop_active <$> (self <$> run 0 (start ++ stop) init_world) = Some true /\
  wheels <$> run 0 (start ++ stop ++ [(2000, resume 1)]) init_world
  = Some [Some (-40); Some (-40); Some (-40); Some (-40)].
Proof. repeat split; vm_compute; reflexivity. Qed.

(** X8.  [cleanup_enhanced] with the lock free returns with no movement
    in progress, every wheel stopped and the PWM loop told to end.  When a
    thread is stuck on the lock during a movement it does not return, and
    the PWM loop is not told to end. *)
Theorem X8_cleanup_enhanced (now : Z) (w : World) :
  let o := cleanup_enhanced now w in
  (safety_lock (self w) = false ->
   returned o = true /\
   is_moving (self (final o)) = false /\
   pwm_running (base (self (final o))) = false /\
   (forall name m,
      motors (base (self (final o))) !! name = Some m ->
      speed_f m = 0 /\ speed_r m = 0)) /\
  (safety_lock (self w) = true -> is_moving (self w) = true ->
   returned o = false /\
   pwm_running (base (self (final o))) = pwm_running (base (self w))).
Proof.
  assert (forall b, pwm_running (Motor.cleanup b) = false) as Hpwm
    by (intros b; unfold Motor.cleanup; by rewrite stop_all_eq).
  assert (forall b name m,
            motors (Motor.cleanup b) !! name = Some m ->
            speed_f m = 0 /\ speed_r m = 0) as Hzero
    by (intros b name m; unfold Motor.cleanup; apply stop_all_zero).
  intros o. subst o. unfold cleanup_enhanced, bind, gets.
  split.
  - intros Hl. destruct (is_moving (self w)) eqn:Hm.
    + rewrite stop_all_safe_free by done. simpl.
      split; [done|]. split; [done|]. split; [apply Hpwm|apply Hzero].
    + simpl. split; [done|]. split; [done|]. split; [apply Hpwm|apply Hzero].
  - intros Hl Hm. rewrite Hm. rewrite stop_all_safe_held by done. simpl.
    split; [done|]. by rewrite stop_all_eq.
Qed.

Lemma X8_cleanup_enhanced_witness :
  let w := final (voice_move_forward 1000 None None init_world) in
  let o := cleanup_enhanced 3000 w in
  returned o = true /\
  is_moving (self (final o)) = false /\
  pwm_running (base (self (final o))) = false /\
  (forall name m,
     motors (base (self (final o))) !! name = Some m ->
     speed_f m = 0 /\ speed_r m = 0).
Proof.
  intros w o.
  assert (safety_lock (self w) = false) as Hl by (vm_compute; reflexivity).
  exact (proj1 (X8_cleanup_enhanced 3000 w) Hl).
Defined.

(** ** The command processor *)

Section History.

Context {W : Type} `{MotorControllerAPI W}.

Implicit Types (p : MovementCommandProcessor W) (h : list CommandRecord).

Lemma last20_length {A} (l : list A) :
  (length (if (20 <? length l)%nat then last20 l else l) <= 20)%nat.
Proof.
  destruct (Nat.ltb_spec 20 (length l)); [|lia].
  unfold last20. rewrite length_drop. lia.
Qed.

Lemma last20_last {A} (l : list A) (x : A) :
  last (if (20 <? length (l ++ [x]))%nat then last20 (l ++ [x]) else l ++ [x]) = Some x.
Proof.
  destruct (20 <? length (l ++ [x]))%nat; [|apply last_snoc].
  unfold last20. rewrite length_app; simpl.
  rewrite drop_app_le by lia. apply last_snoc.
Qed.

Lemma mark_last_length ct h : length (mark_last ct h) = length h.
Proof.
  unfold mark_last. destruct (last h) as [r|] eqn:Hr; [|done].
  apply last_Some in Hr as [h' ->].
  rewrite removelast_last, !length_app. done.
Qed.

Lemma mark_last_last ct h r :
  last h = Some r ->
  last (mark_last ct h)
  = Some (mkRecord (rec_text r) (rec_timestamp r) true (Some ct) (Some true)).
Proof. intros Hr. unfold mark_last. rewrite Hr. apply last_snoc. Qed.

Lemma settles_execute now pick ct speed duration p :
  settles now (command_history p)
          (_execute_movement_command now pick ct speed duration p).
Proof.
  unfold _execute_movement_command.
  destruct (invoke ct now speed duration) as [[e|method]|]; [done| |done].
  unfold bind, on_controller, _record_success, modify, ret.
  destruct (method (Commands.motor_controller p)); simpl; [|done].
  by exists ct.
Qed.

Lemma settles_loop now pick table text speed duration p :
  settles now (command_history p) (movement_loop now pick table text speed duration p).
Proof.
  induction table as [|[ct ps] table IH]; simpl; [done|].
  destruct (String.eqb ct "stop" || String.eqb ct "emergency_stop"); [done|].
  destruct (_match_command text ct); [apply settles_execute|done].
Qed.

Lemma settles_process now pick c s p :
  let text := strip (lower (String c s)) in
  settles now (command_history (final (record_command now text p)))
          (process_voice_command now pick (String c s) p).
Proof.
  intros text. unfold process_voice_command. fold text.
  unfold bind at 1. unfold record_command at 2, modify at 1. cbn [final].
  set (p1 := set_history _ p).
  change (final (record_command now text p)) with p1.
  destruct (_match_command text "emergency_stop").
  { unfold bind, on_controller, _record_success, modify, ret.
    destruct (api_emergency_stop now (Commands.motor_controller p1)); simpl; [|done].
    by exists "emergency_stop". }
  destruct (_match_command text "stop").
  { unfold bind, on_controller, _record_success, modify, ret.
    destruct (api_stop_all_safe now (Commands.motor_controller p1)); simpl; [|done].
    by exists "stop". }
  apply settles_loop.
Qed.

(** No pattern of the table matches: no command type matches. *)
Lemma no_pattern_no_match table text ct :
  existsb (fun entry => existsb (fun pattern => found pattern text) (snd entry)) table
  = false ->
  existsb (fun pattern => found pattern text) (patterns_of table ct) = false.
Proof.
  induction table as [|[k ps] table IH]; simpl; [done|].
  intros [Hps Htable]%orb_false_iff.
  destruct (String.eqb k ct); [exact Hps|by apply IH].
Qed.

Lemma loop_without_match now pick table text speed duration p :
  (forall ct, _match_command text ct = false) ->
  movement_loop now pick table text speed duration p
  = Returned (failure "I didn't understand that movement command") p.
Proof.
  intros Hno. induction table as [|[ct ps] table IH]; simpl; [done|].
  rewrite Hno. by destruct (String.eqb ct "stop" || String.eqb ct "emergency_stop").
Qed.

End History.

Lemma speed_type_value speed_type patterns text v :
  _extract_speed_type speed_type patterns text = Some v ->
  speed_of_type speed_type = Some v.
Proof.
  induction patterns as [|pattern patterns IH]; simpl; [done|].
  destruct (found pattern text); [|exact IH].
  destruct (speed_of_type speed_type) as [v'|]; [done|exact IH].
Qed.

Lemma speed_type_found speed_type patterns text v :
  speed_of_type speed_type = Some v ->
  existsb (fun pattern => found pattern text) patterns = true ->
  _extract_speed_type speed_type patterns text = Some v.
Proof.
  intros Hv. induction patterns as [|pattern patterns IH]; simpl; [done|].
  destruct (found pattern text); simpl; [by rewrite Hv|exact IH].
Qed.

Lemma speed_type_not_found speed_type patterns text :
  existsb (fun pattern => found pattern text) patterns = false ->
  _extract_speed_type speed_type patterns text = None.
Proof.
  induction patterns as [|pattern patterns IH]; simpl; [done|].
  destruct (found pattern text); simpl; [done|exact IH].
Qed.

(** X9.  The speed a command asks for in words is 30, 65 or 50, so never
    above the cap of 70; and the words are tried in the order slow, fast,
    normal: a word of an earlier group decides, whatever follows. *)
Theorem X9_extract_speed (text : string) :
  let said group :=
    existsb (fun pattern => found pattern text) (patterns_of speed_patterns group) in
  (forall v, _extract_speed text = Some v -> v = 30 \/ v = 65 \/ v = 50) /\
  (said "slow" = true -> _extract_speed text = Some 30) /\
  (said "slow" = false -> said "fast" = true -> _extract_speed text = Some 65) /\
  (said "slow" = false -> said "fast" = false -> said "normal" = true ->
   _extract_speed text = Some 50) /\
  (said "slow" = false -> said "fast" = false -> said "normal" = false ->
   _extract_speed text = None).
Proof.
  intros said. subst said. unfold _extract_speed, speed_patterns.
  cbn [patterns_of String.eqb Ascii.eqb Bool.eqb _extract_speed_from].
  split; [|split; [|split; [|split]]].
  - intros v.
    destruct (_extract_speed_type "slow" _ text) as [v1|] eqn:H1.
    { apply speed_type_value in H1. intros [= <-]. vm_compute in H1. left. congruence. }
    destruct (_extract_speed_type "fast" _ text) as [v2|] eqn:H2.
    { apply speed_type_value in H2. intros [= <-]. vm_compute in H2.
      right; left. congruence. }
    destruct (_extract_speed_type "normal" _ text) as [v3|] eqn:H3; [|done].
    apply speed_type_value in H3. intros [= <-]. vm_compute in H3.
    right; right. congruence.
  - intros Hs. by rewrite (speed_type_found "slow" _ text 30).
  - intros Hs Hf. rewrite (speed_type_not_found "slow") by done.
    by rewrite (speed_type_found "fast" _ text 65).
  - intros Hs Hf Hn. rewrite (speed_type_not_found "slow") by done.
    rewrite (speed_type_not_found "fast") by done.
    by rewrite (speed_type_found "normal" _ text 50).
  - intros Hs Hf Hn. rewrite (speed_type_not_found "slow") by done.
    rewrite (speed_type_not_found "fast") by done.
    by rewrite (speed_type_not_found "normal") by done.
Qed.

Lemma X9_extract_speed_witness :
  _extract_speed "go forward slowly but fast" = Some 30.
Proof.
  apply (proj1 (proj2 (X9_extract_speed "go forward slowly but fast"))).
  vm_compute. reflexivity.
Defined.

(** X10.  [is_movement_command] is a sound gate: an utterance it refuses
    makes [process_voice_command] fail without calling the motor
    controller, whichever controller it is, and without touching
    [last_command_time]. *)
Theorem X10_not_a_movement_command {W : Type} `{MotorControllerAPI W}
    (now : Z) (pick : nat) (voice_text : string) (p : MovementCommandProcessor W) :
  is_movement_command voice_text = false ->
  exists msg p',
    process_voice_command now pick voice_text p = Returned (failure msg) p' /\
    Commands.motor_controller p' = Commands.motor_controller p /\
    last_command_time p' = last_command_time p.
Proof.
  destruct voice_text as [|c s]; [by exists "No voice input received", p|].
  unfold is_movement_command, process_voice_command.
  set (text := strip (lower (String c s))). intros Hno.
  assert (forall ct, _match_command text ct = false) as Hmatch
    by (intros ct; by apply no_pattern_no_match).
  rewrite !Hmatch. unfold bind at 1. unfold record_command, modify.
  rewrite loop_without_match by done.
  by eexists _, _.
Qed.

Lemma X10_not_a_movement_command_witness :
  exists msg p',
    process_voice_command 1000 0 "what is a resistor" (new_processor Control.init_world)
    = Returned (failure msg) p' /\
    Commands.motor_controller p' = Control.init_world /\
    last_command_time p' = 0.
Proof.
  apply (X10_not_a_movement_command 1000 0 "what is a resistor"
           (new_processor Control.init_world)).
  vm_compute. reflexivity.
Defined.

(** X11.  After an utterance that is not empty, [command_history] holds
    at most 20 records and its last one is the utterance, lower-cased and
    stripped, with the time it was heard.  If the command returns, that
    record is marked processed exactly when the command succeeded, and
    then it carries the command type of the result and
    [last_command_time] is the time of the command. *)
Theorem X11_command_history {W : Type} `{MotorControllerAPI W}
    (now : Z) (pick : nat) (voice_text : string) (p : MovementCommandProcessor W) :
  voice_text <> "" ->
  let o := process_voice_command now pick voice_text p in
  (length (command_history (final o)) <= 20)%nat /\
  exists r,
    last (command_history (final o)) = Some r /\
    rec_text r = strip (lower voice_text) /\
    rec_timestamp r = now /\
    forall res p',
      o = Returned res p' ->
      rec_processed r = success res /\
      (success res = true ->
       rec_command_type r = command_type res /\ last_command_time p' = now).
Proof.
  destruct voice_text as [|c s]; [done|]. intros _ o.
  pose proof (settles_process now pick c s p) as Hs. fold o in Hs.
  simpl in Hs. unfold record_command, modify in Hs. cbn [final] in Hs.
  unfold set_history in Hs. cbn [command_history] in Hs.
  set (text := strip (lower (String c s))) in *.
  set (r0 := mkRecord text now false None None) in *.
  set (h1 := if (20 <? length (command_history p ++ [r0]))%nat
             then last20 (command_history p ++ [r0])
             else (command_history p ++ [r0])%list) in *.
  assert ((length h1 <= 20)%nat) as Hlen by apply last20_length.
  assert (last h1 = Some r0) as Hlast by apply last20_last.
  destruct o as [res p'|p']; simpl in Hs |- *.
  - destruct (success res) eqn:Hok.
    + destruct Hs as (ct & Hct & -> & Hnow).
      rewrite mark_last_length. split; [exact Hlen|].
      eexists. split; [by apply mark_last_last|]. simpl.
      split; [done|]. split; [done|].
      intros res' p'' [= <- <-]. rewrite Hok. split; [done|]. intros _.
      by rewrite Hct.
    + rewrite Hs. split; [exact Hlen|].
      exists r0. split; [exact Hlast|]. split; [done|]. split; [done|].
      intros res' p'' [= <- <-]. rewrite Hok. split; [done|]. done.
  - rewrite Hs. split; [exact Hlen|].
    exists r0. split; [exact Hlast|]. split; [done|]. split; [done|]. done.
Qed.

Lemma X11_command_history_witness :
  let o := process_voice_command 1000 0 "  Turn LEFT " (new_processor mock) in
  (length (command_history (final o)) <= 20)%nat /\
  exists r,
    last (command_history (final o)) = Some r /\
    rec_text r = strip (lower "  Turn LEFT ") /\
    rec_timestamp r = 1000 /\
    forall res p',
      o = Returned res p' ->
      rec_processed r = success res /\
      (success res = true ->
       rec_command_type r = command_type res /\ last_command_time p' = 1000).
Proof.
  apply (X11_command_history 1000 0 "  Turn LEFT " (new_processor mock)).
  discriminate.
Defined.
